(** * KubeArmor: the log builder of the system monitor and the log feeder

    A shallow embedding of
    - [KubeArmor/types/types.go]: the [Container] and [Log] structures;
    - [protobuf/kubearmor.proto]: the [Message] and [Log] wire records;
    - the monitor's log builder ([GetNameFromContainerID], [BuildLogBase],
      [UpdateLogs]);
    - [KubeArmor/feeder/feeder.go]: the subscriber tables, [WatchMessages],
      [WatchLogs], [PushMessage] and [PushLog].

    Go maps are [gmap]s; the order in which [range] walks a map is not fixed
    by the language and is an explicit input of the model. A run-time panic
    is [None]. A loop body that runs under a lock is one atomic step on an
    explicit state; what a goroutine reads or starts outside a lock (the
    test of [Running], a [go] statement, a [select]) is a step of its own. *)

From Stdlib Require Import ZArith Lia.
From Stdlib.Strings Require Import Byte String.
From stdpp Require Import gmap strings list fin_maps pretty sorting.

Local Open Scope Z_scope.

(* ===================================================================== *)
(** ** Go primitives used by the sources *)
(* ===================================================================== *)

(** [int32(x)] on an unsigned 32-bit value: the low 32 bits, read as two's
    complement. *)
Definition int32 (x : Z) : Z := (x + 2 ^ 31) `mod` 2 ^ 32 - 2 ^ 31.

(** [strconv.Itoa] and the [%d] verb: decimal, with a minus sign. *)
Definition Itoa (n : Z) : string := pretty n.

Global Instance byte_eq_decision : EqDecision byte := Byte.byte_eq_dec.

(** [bytes.IndexByte(b, c)]: the index of the first [c] in [b], or -1. *)
Fixpoint IndexByte (b : list byte) (c : byte) : Z :=
  match b with
  | [] => -1
  | x :: rest =>
      if Byte.eqb x c then 0
      else let i := IndexByte rest c in
           if i <? 0 then -1 else i + 1
  end.

(** The slice expression [b[:hi]]: out of range indices panic. *)
Definition slice_to (b : list byte) (hi : Z) : option (list byte) :=
  if (0 <=? hi) && (hi <=? Z.of_nat (length b))
  then Some (take (Z.to_nat hi) b)
  else None.

(** The order in which one [for k, v := range m] statement visits a map. *)
Definition RangeOrder (V : Type) : Type := gmap string V → list (string * V).

(** What the language promises about it: every entry once, nothing else. *)
Definition range_ok {V : Type} (rng : RangeOrder V) : Prop :=
  ∀ m, rng m ≡ₚ map_to_list m.

(* ===================================================================== *)
(** ** Package [types] *)
(* ===================================================================== *)

Module tp.

Module Container.
Record t := mk {
  ContainerID : string;
  ContainerName : string;
  HostName : string;
  HostIP : string;
  NamespaceName : string;
  ContainerGroupName : string;
  ImageName : string;
  Labels : list string;
  AppArmorProfile : string;
}.
End Container.

Module Log.
Record t := mk {
  UpdatedTime : string;
  HostName : string;
  NamespaceName : string;
  PodName : string;
  ContainerID : string;
  ContainerName : string;
  HostPID : Z;
  PPID : Z;
  PID : Z;
  UID : Z;
  PolicyName : string;
  Severity : string;
  Tags : string;
  Message : string;
  Type_ : string;
  Source : string;
  Operation : string;
  Resource : string;
  Data : string;
  Action : string;
  Result : string;
}.

(** [tp.Log{}]: every field at its zero value. *)
Definition zero : t :=
  mk "" "" "" "" "" "" 0 0 0 0 "" "" "" "" "" "" "" "" "" "" "".

(** Field assignments [log.F = v]. *)
Definition set_UpdatedTime (v : string) (l : t) : t :=
  mk v (HostName l) (NamespaceName l) (PodName l) (ContainerID l)
     (ContainerName l) (HostPID l) (PPID l) (PID l) (UID l) (PolicyName l)
     (Severity l) (Tags l) (Message l) (Type_ l) (Source l) (Operation l)
     (Resource l) (Data l) (Action l) (Result l).
Definition set_HostName (v : string) (l : t) : t :=
  mk (UpdatedTime l) v (NamespaceName l) (PodName l) (ContainerID l)
     (ContainerName l) (HostPID l) (PPID l) (PID l) (UID l) (PolicyName l)
     (Severity l) (Tags l) (Message l) (Type_ l) (Source l) (Operation l)
     (Resource l) (Data l) (Action l) (Result l).
Definition set_Names (ns pod cn : string) (l : t) : t :=
  mk (UpdatedTime l) (HostName l) ns pod (ContainerID l)
     cn (HostPID l) (PPID l) (PID l) (UID l) (PolicyName l)
     (Severity l) (Tags l) (Message l) (Type_ l) (Source l) (Operation l)
     (Resource l) (Data l) (Action l) (Result l).
Definition set_ContainerID (v : string) (l : t) : t :=
  mk (UpdatedTime l) (HostName l) (NamespaceName l) (PodName l) v
     (ContainerName l) (HostPID l) (PPID l) (PID l) (UID l) (PolicyName l)
     (Severity l) (Tags l) (Message l) (Type_ l) (Source l) (Operation l)
     (Resource l) (Data l) (Action l) (Result l).
Definition set_HostPID (v : Z) (l : t) : t :=
  mk (UpdatedTime l) (HostName l) (NamespaceName l) (PodName l) (ContainerID l)
     (ContainerName l) v (PPID l) (PID l) (UID l) (PolicyName l)
     (Severity l) (Tags l) (Message l) (Type_ l) (Source l) (Operation l)
     (Resource l) (Data l) (Action l) (Result l).
Definition set_PPID (v : Z) (l : t) : t :=
  mk (UpdatedTime l) (HostName l) (NamespaceName l) (PodName l) (ContainerID l)
     (ContainerName l) (HostPID l) v (PID l) (UID l) (PolicyName l)
     (Severity l) (Tags l) (Message l) (Type_ l) (Source l) (Operation l)
     (Resource l) (Data l) (Action l) (Result l).
Definition set_PID (v : Z) (l : t) : t :=
  mk (UpdatedTime l) (HostName l) (NamespaceName l) (PodName l) (ContainerID l)
     (ContainerName l) (HostPID l) (PPID l) v (UID l) (PolicyName l)
     (Severity l) (Tags l) (Message l) (Type_ l) (Source l) (Operation l)
     (Resource l) (Data l) (Action l) (Result l).
Definition set_UID (v : Z) (l : t) : t :=
  mk (UpdatedTime l) (HostName l) (NamespaceName l) (PodName l) (ContainerID l)
     (ContainerName l) (HostPID l) (PPID l) (PID l) v (PolicyName l)
     (Severity l) (Tags l) (Message l) (Type_ l) (Source l) (Operation l)
     (Resource l) (Data l) (Action l) (Result l).
Definition set_Source (v : string) (l : t) : t :=
  mk (UpdatedTime l) (HostName l) (NamespaceName l) (PodName l) (ContainerID l)
     (ContainerName l) (HostPID l) (PPID l) (PID l) (UID l) (PolicyName l)
     (Severity l) (Tags l) (Message l) (Type_ l) v (Operation l)
     (Resource l) (Data l) (Action l) (Result l).
Definition set_Operation (v : string) (l : t) : t :=
  mk (UpdatedTime l) (HostName l) (NamespaceName l) (PodName l) (ContainerID l)
     (ContainerName l) (HostPID l) (PPID l) (PID l) (UID l) (PolicyName l)
     (Severity l) (Tags l) (Message l) (Type_ l) (Source l) v
     (Resource l) (Data l) (Action l) (Result l).
Definition set_Resource (v : string) (l : t) : t :=
  mk (UpdatedTime l) (HostName l) (NamespaceName l) (PodName l) (ContainerID l)
     (ContainerName l) (HostPID l) (PPID l) (PID l) (UID l) (PolicyName l)
     (Severity l) (Tags l) (Message l) (Type_ l) (Source l) (Operation l)
     v (Data l) (Action l) (Result l).
Definition set_Data (v : string) (l : t) : t :=
  mk (UpdatedTime l) (HostName l) (NamespaceName l) (PodName l) (ContainerID l)
     (ContainerName l) (HostPID l) (PPID l) (PID l) (UID l) (PolicyName l)
     (Severity l) (Tags l) (Message l) (Type_ l) (Source l) (Operation l)
     (Resource l) v (Action l) (Result l).
Definition set_Result (v : string) (l : t) : t :=
  mk (UpdatedTime l) (HostName l) (NamespaceName l) (PodName l) (ContainerID l)
     (ContainerName l) (HostPID l) (PPID l) (PID l) (UID l) (PolicyName l)
     (Severity l) (Tags l) (Message l) (Type_ l) (Source l) (Operation l)
     (Resource l) (Data l) (Action l) v.
End Log.

Module MatchPolicy.
Record t := mk {
  PolicyName : string;
  Severity : string;
  Tags : list string;
  Message : string;
  Source : string;
  Operation : string;
  Resource : string;
  Action : string;
}.
End MatchPolicy.

(** [MatchPolicies]: a struct around one slice. *)
Record MatchPolicies := { Policies : list MatchPolicy.t }.

End tp.

(* ===================================================================== *)
(** ** Package [protobuf] *)
(* ===================================================================== *)

Module pb.

Module Message.
Record t := mk {
  UpdatedTime : string;
  ClusterName : string;
  HostName : string;
  HostIP : string;
  Level : string;
  Message : string;
}.
End Message.

Module Log.
Record t := mk {
  UpdatedTime : string;
  ClusterName : string;
  HostName : string;
  NamespaceName : string;
  PodName : string;
  ContainerID : string;
  ContainerName : string;
  HostPID : Z;
  PPID : Z;
  PID : Z;
  UID : Z;
  PolicyName : string;
  Severity : string;
  Tags : string;
  Message : string;
  Type_ : string;
  Source : string;
  Operation : string;
  Resource : string;
  Data : string;
  Action : string;
  Result : string;
}.
End Log.

End pb.

(* ===================================================================== *)
(** ** Package [feeder] *)
(* ===================================================================== *)

Module feeder.

(** A gRPC server stream ([pb.LogService_WatchMessagesServer],
    [pb.LogService_WatchLogsServer]) is a handle; what [Send] does with it
    belongs to the network side of the state below. *)
Module MsgStruct.
Record t := mk { Client : nat; Filter : string }.
End MsgStruct.

Module LogStruct.
Record t := mk { Client : nat; Filter : string }.
End LogStruct.

(** [HealthCheck]: the nonce comes back, with no error. *)
Definition HealthCheck (nonce : Z) : Z * option string := (nonce, None).

(** [LogService]: the two subscriber tables (their mutexes are the atomicity
    of the operations below). *)
Record LogService := mkLogService {
  MsgStructs : gmap string MsgStruct.t;
  LogStructs : gmap string LogStruct.t;
}.

Definition addMsgStruct (uid : string) (srv : nat) (filter : string)
    (ls : LogService) : LogService :=
  let msgStruct := MsgStruct.mk srv filter in
  mkLogService (<[uid := msgStruct]> (MsgStructs ls)) (LogStructs ls).

Definition removeMsgStruct (uid : string) (ls : LogService) : LogService :=
  mkLogService (delete uid (MsgStructs ls)) (LogStructs ls).

(** [getMsgStructs] appends the values while ranging over the table: the
    snapshot lists them in the order of that walk. *)
Definition getMsgStructs (walk : RangeOrder MsgStruct.t)
    (ls : LogService) : list MsgStruct.t :=
  (walk (MsgStructs ls)).*2.

Definition addLogStruct (uid : string) (srv : nat) (filter : string)
    (ls : LogService) : LogService :=
  let logStruct := LogStruct.mk srv filter in
  mkLogService (MsgStructs ls) (<[uid := logStruct]> (LogStructs ls)).

Definition removeLogStruct (uid : string) (ls : LogService) : LogService :=
  mkLogService (MsgStructs ls) (delete uid (LogStructs ls)).

Definition getLogStructs (walk : RangeOrder LogStruct.t)
    (ls : LogService) : list LogStruct.t :=
  (walk (LogStructs ls)).*2.

(** One call of [Client.Send]: through which subscriber entry, what, and
    whether it returned [nil]. *)
Record Sent (S A : Type) := mkSent { via : S; item : A; ok : bool }.
Arguments mkSent {S A} _ _ _.
Arguments via {S A} _.
Arguments item {S A} _.
Arguments ok {S A} _.

(** One write to the local sink. *)
Inductive SinkWrite :=
  | Println (line : string)
  | StrToFile (str path : string).

(** The package's globals, the service, and the outside world as far as the
    feeder acts on it: streams that fail, the calls of [Send] made so far,
    and the writes to stdout or to the log file. *)
Record State := mkState {
  Running : bool;
  MsgQueue : list pb.Message.t;
  LogQueue : list pb.Log.t;
  ls : LogService;
  Broken : gset nat;
  MsgSends : list (Sent MsgStruct.t pb.Message.t);
  LogSends : list (Sent LogStruct.t pb.Log.t);
  Sink : list SinkWrite;
}.

(** [init()] and [NewFeeder]: running, empty queues, empty tables. *)
Definition init : State :=
  mkState true [] [] (mkLogService ∅ ∅) ∅ [] [] [].

(** [mgs.Client.Send(&msg)]: an error on a broken stream; the caller drops
    the returned value either way. *)
Definition SendMsg (broken : gset nat) (mgs : MsgStruct.t) (msg : pb.Message.t)
    (sends : list (Sent MsgStruct.t pb.Message.t)) :=
  sends ++ [mkSent mgs msg (bool_decide (MsgStruct.Client mgs ∉ broken))].

Definition SendLog (broken : gset nat) (lgs : LogStruct.t) (log : pb.Log.t)
    (sends : list (Sent LogStruct.t pb.Log.t)) :=
  sends ++ [mkSent lgs log (bool_decide (LogStruct.Client lgs ∉ broken))].

(** The body of [for _, mgs := range msgStructs]. *)
Definition send_msg_to_all (broken : gset nat) (msg : pb.Message.t)
    (msgStructs : list MsgStruct.t) sends :=
  foldl (λ sends mgs, SendMsg broken mgs msg sends) sends msgStructs.

(** [for len(MsgQueue) != 0]: take the head, send it around, go on. *)
Fixpoint drain_msgs (broken : gset nat) (queue : list pb.Message.t)
    (msgStructs : list MsgStruct.t) sends :=
  match queue with
  | [] => sends
  | msg :: queue =>
      drain_msgs broken queue msgStructs
        (send_msg_to_all broken msg msgStructs sends)
  end.

(** One turn of the loop of [WatchMessages], between [MsgLock.Lock()] and
    [MsgLock.Unlock()]. *)
Definition WatchMessages_turn (walk : RangeOrder MsgStruct.t)
    (s : State) : State :=
  let msgStructs := getMsgStructs walk (ls s) in
  mkState (Running s) [] (LogQueue s) (ls s) (Broken s)
    (drain_msgs (Broken s) (MsgQueue s) msgStructs (MsgSends s))
    (LogSends s) (Sink s).

(** The body of [for _, lgs := range logStructs]: the filter chain. *)
Definition send_log_to_all (broken : gset nat) (log : pb.Log.t)
    (logStructs : list LogStruct.t) sends :=
  foldl (λ sends lgs,
    if String.eqb (LogStruct.Filter lgs) "" then
      SendLog broken lgs log sends
    else if String.eqb (LogStruct.Filter lgs) "policy"
         && (String.eqb (pb.Log.Type_ log) "MatchedPolicy"
             || String.eqb (pb.Log.Type_ log) "MatchedHostPolicy") then
      SendLog broken lgs log sends
    else if String.eqb (LogStruct.Filter lgs) "system"
         && (String.eqb (pb.Log.Type_ log) "ContainerLog"
             || String.eqb (pb.Log.Type_ log) "HostLog") then
      SendLog broken lgs log sends
    else sends) sends logStructs.

Fixpoint drain_logs (broken : gset nat) (queue : list pb.Log.t)
    (logStructs : list LogStruct.t) sends :=
  match queue with
  | [] => sends
  | log :: queue =>
      drain_logs broken queue logStructs
        (send_log_to_all broken log logStructs sends)
  end.

(** One turn of the loop of [WatchLogs], between [LogLock.Lock()] and
    [LogLock.Unlock()]. *)
Definition WatchLogs_turn (walk : RangeOrder LogStruct.t)
    (s : State) : State :=
  let logStructs := getLogStructs walk (ls s) in
  mkState (Running s) (MsgQueue s) [] (ls s) (Broken s) (MsgSends s)
    (drain_logs (Broken s) (LogQueue s) logStructs (LogSends s))
    (Sink s).

(** [Feeder]: the fields that are data (the listener, the gRPC server and
    the wait group are handles of the runtime). *)
Record Feeder := mkFeeder {
  port : string;
  output : string;
  clusterName : string;
  hostName : string;
  hostIP : string;
  SecurityPolicies : gmap string tp.MatchPolicies;
  EnableSystemLog : bool;
}.

(** What [PushLog] calls and [feeder.go] does not define: the policy matcher
    of the same package, and [json.Marshal] with [string(arr)]. Both are
    taken as given, as functions of their arguments. *)
Class Matcher := {
  UpdateMatchedPolicy : Feeder → tp.Log.t → tp.Log.t;
  Marshal : tp.Log.t → string;
}.

(** [PushMessage]; [now] is what [kl.GetDateTimeNow()] returns. *)
Definition PushMessage (fd : Feeder) (now level message : string)
    (s : State) : State * option string :=
  let pbMsg :=
    pb.Message.mk now (clusterName fd) (hostName fd) (hostIP fd) level message in
  (mkState (Running s) (MsgQueue s ++ [pbMsg]) (LogQueue s) (ls s) (Broken s)
     (MsgSends s) (LogSends s) (Sink s), None).

(** An assignment guarded by [len(v) > 0]; otherwise the field keeps the
    zero value of [pb.Log{}]. *)
Definition if_nonempty (v : string) : string :=
  if (0 <? Z.of_nat (String.length v)) then v else "".

(** The gRPC record [PushLog] fills in. *)
Definition to_pbLog (fd : Feeder) (log : tp.Log.t) : pb.Log.t :=
  pb.Log.mk
    (tp.Log.UpdatedTime log)
    (clusterName fd)
    (tp.Log.HostName log)
    (tp.Log.NamespaceName log)
    (tp.Log.PodName log)
    (tp.Log.ContainerID log)
    (tp.Log.ContainerName log)
    (tp.Log.HostPID log)
    (tp.Log.PPID log)
    (tp.Log.PID log)
    (tp.Log.UID log)
    (if_nonempty (tp.Log.PolicyName log))
    (if_nonempty (tp.Log.Severity log))
    (if_nonempty (tp.Log.Tags log))
    (if_nonempty (tp.Log.Message log))
    (tp.Log.Type_ log)
    (tp.Log.Source log)
    (tp.Log.Operation log)
    (tp.Log.Resource log)
    (if_nonempty (tp.Log.Data log))
    (if_nonempty (tp.Log.Action log))
    (tp.Log.Result log).

(** [PushLog]: the returned error is [None] for Go's [nil]. *)
Definition PushLog `{Matcher} (fd : Feeder) (log : tp.Log.t)
    (s : State) : State * option string :=
  let log := UpdateMatchedPolicy fd log in
  if String.eqb (tp.Log.UpdatedTime log) "" then (s, None)
  else
    let sink :=
      if String.eqb (output fd) "stdout" then
        Sink s ++ [Println (Marshal log)]
      else if negb (String.eqb (output fd) "none") then
        Sink s ++ [StrToFile (Marshal log) (output fd)]
      else Sink s in
    let pbLog := to_pbLog fd log in
    (mkState (Running s) (MsgQueue s) (LogQueue s ++ [pbLog]) (ls s)
       (Broken s) (MsgSends s) (LogSends s) sink, None).

(** [DestroyFeeder] stops the service loops. *)
Definition DestroyFeeder (s : State) : State :=
  mkState false (MsgQueue s) (LogQueue s) (ls s) (Broken s) (MsgSends s)
    (LogSends s) (Sink s).

Definition with_ls (f : LogService → LogService) (s : State) : State :=
  mkState (Running s) (MsgQueue s) (LogQueue s) (f (ls s)) (Broken s)
    (MsgSends s) (LogSends s) (Sink s).

Definition break_stream (c : nat) (s : State) : State :=
  mkState (Running s) (MsgQueue s) (LogQueue s) (ls s) ({[c]} ∪ Broken s)
    (MsgSends s) (LogSends s) (Sink s).

(** Where a call of [WatchMessages] or [WatchLogs] stands in its loop:
    about to read [Running], or past a read that gave [true], with
    [Lock()] and the loop body still ahead. *)
Inductive Stage :=
  | AtTest
  | InTurn.

Global Instance Stage_eq_dec : EqDecision Stage.
Proof. solve_decision. Defined.

(** A call of [WatchMessages] or [WatchLogs] in progress: the uid it drew
    and where it stands. *)
Record Watcher := mkWatcher { uid : string; stage : Stage }.

(** The feeder and the calls in progress on it. *)
Record System := mkSystem {
  globals :> State;
  MsgWatchers : list Watcher;
  LogWatchers : list Watcher;
}.

(** Before any call: the state [init()] leaves, nobody watching. *)
Definition booted : System := mkSystem init [] [].

(** The feeder as a transition system. A call of [WatchLogs] draws a uid
    and registers; it then reads [Running] with no lock held, and, when the
    read gave [true], takes the lock and runs the body, at any later time:
    other goroutines run between the read and the body, [DestroyFeeder]
    among them. A read that gives [false] ends the loop and the deferred
    [removeLogStruct] runs; nothing sets [Running] back to [true], so the
    removal is taken together with the read. The same for [WatchMessages].
    The body holds [LogLock] (or [MsgLock]) from the snapshot of the table
    to the last [Send] and is one step. The other steps are the pushes,
    the shutdown, and a peer going away. *)
Inductive step `{Matcher} : System → System → Prop :=
  | step_WatchMessages_enter uid svr filter s :
      step s (mkSystem (with_ls (addMsgStruct uid svr filter) s)
                (MsgWatchers s ++ [mkWatcher uid AtTest]) (LogWatchers s))
  | step_WatchMessages_test i uid s :
      MsgWatchers s !! i = Some (mkWatcher uid AtTest) → Running s = true →
      step s (mkSystem s (<[i := mkWatcher uid InTurn]> (MsgWatchers s))
                (LogWatchers s))
  | step_WatchMessages_turn i uid walk s :
      MsgWatchers s !! i = Some (mkWatcher uid InTurn) → range_ok walk →
      step s (mkSystem (WatchMessages_turn walk s)
                (<[i := mkWatcher uid AtTest]> (MsgWatchers s))
                (LogWatchers s))
  | step_WatchMessages_exit i uid s :
      MsgWatchers s !! i = Some (mkWatcher uid AtTest) → Running s = false →
      step s (mkSystem (with_ls (removeMsgStruct uid) s)
                (delete i (MsgWatchers s)) (LogWatchers s))
  | step_WatchLogs_enter uid svr filter s :
      step s (mkSystem (with_ls (addLogStruct uid svr filter) s)
                (MsgWatchers s) (LogWatchers s ++ [mkWatcher uid AtTest]))
  | step_WatchLogs_test i uid s :
      LogWatchers s !! i = Some (mkWatcher uid AtTest) → Running s = true →
      step s (mkSystem s (MsgWatchers s)
                (<[i := mkWatcher uid InTurn]> (LogWatchers s)))
  | step_WatchLogs_turn i uid walk s :
      LogWatchers s !! i = Some (mkWatcher uid InTurn) → range_ok walk →
      step s (mkSystem (WatchLogs_turn walk s) (MsgWatchers s)
                (<[i := mkWatcher uid AtTest]> (LogWatchers s)))
  | step_WatchLogs_exit i uid s :
      LogWatchers s !! i = Some (mkWatcher uid AtTest) → Running s = false →
      step s (mkSystem (with_ls (removeLogStruct uid) s) (MsgWatchers s)
                (delete i (LogWatchers s)))
  | step_PushMessage fd now level message s :
      step s (mkSystem (PushMessage fd now level message s).1
                (MsgWatchers s) (LogWatchers s))
  | step_PushLog fd log s :
      step s (mkSystem (PushLog fd log s).1 (MsgWatchers s) (LogWatchers s))
  | step_DestroyFeeder s :
      step s (mkSystem (DestroyFeeder s) (MsgWatchers s) (LogWatchers s))
  | step_break c s :
      step s (mkSystem (break_stream c s) (MsgWatchers s) (LogWatchers s)).

(** States the feeder can be in. *)
Definition reachable `{Matcher} (s : System) : Prop := rtc step booted s.

End feeder.

(* ===================================================================== *)
(** ** Package [monitor]: the log builder *)
(* ===================================================================== *)

Module monitor.

(** The fields of the event context that the log builder reads. [Comm] is a
    byte array ([Comm[:]] slices it); the numeric fields are unsigned 32-bit
    but for [EventID] and the signed [Retval]. *)
Record SyscallContext := mkSyscallContext {
  HostPID : Z;
  PPID : Z;
  PID : Z;
  UID : Z;
  EventID : Z;
  Retval : Z;
  Comm : list byte;
}.

(** An element of [ContextArgs], a slice of [interface{}]: the dynamic types
    the builder asserts, and any other. *)
Inductive Arg :=
  | ArgString (s : string)
  | ArgInt32 (n : Z)
  | ArgSockAddr (m : gmap string string)
  | ArgOther.

Record ContextCombined := mkContextCombined {
  ContainerID : string;
  ContextSys : SyscallContext;
  ContextArgs : list Arg;
}.

(** [SystemMonitor], as far as the builder reads it. [LogFeeder] is a
    pointer: [None] is [nil]. *)
Record SystemMonitor := mkSystemMonitor {
  HostName : string;
  Containers : gmap string tp.Container.t;
  EnableAuditd : bool;
  LogFeeder : option feeder.Feeder;
}.

(** Names the builder uses and other files of the package declare: the
    event ids, the return value of a denied access, the two lookup tables
    and the process tracker. The development is parametric in them. The one
    thing it asks is what the compiler enforces on the [switch] of
    [UpdateLogs]: no two of its case constants are equal. *)
Class Externals := {
  SYS_OPEN : Z;
  SYS_OPENAT : Z;
  SYS_CLOSE : Z;
  SYS_SOCKET : Z;
  SYS_CONNECT : Z;
  SYS_ACCEPT : Z;
  SYS_BIND : Z;
  SYS_LISTEN : Z;
  SYS_EXECVE : Z;
  SYS_EXECVEAT : Z;
  PERMISSION_DENIED : Z;
  getSyscallName : Z → string;
  getErrorMessage : Z → string;
  GetExecPath : SystemMonitor → string → Z → string;
  switch_cases :
    NoDup [SYS_OPEN; SYS_OPENAT; SYS_CLOSE; SYS_SOCKET;
           SYS_CONNECT; SYS_ACCEPT; SYS_BIND; SYS_LISTEN];
}.

(** [GetNameFromContainerID] *)
Definition GetNameFromContainerID (mon : SystemMonitor) (containerID : string)
    : string * string * string :=
  match Containers mon !! containerID with
  | Some val =>
      (tp.Container.NamespaceName val,
       tp.Container.ContainerGroupName val,
       tp.Container.ContainerName val)
  | None => ("", "", "")
  end.

(** [BuildLogBase]; [now] is what [kl.GetDateTimeNow()] returns. The one
    expression that can panic is the slice of [Comm]. *)
Definition BuildLogBase `{Externals} (mon : SystemMonitor) (now : string)
    (msg : ContextCombined) : option tp.Log.t :=
  let log := tp.Log.zero in
  let log := tp.Log.set_UpdatedTime now log in
  let log := tp.Log.set_HostName (HostName mon) log in
  let log := tp.Log.set_ContainerID (ContainerID msg) log in
  let '(ns, pod, cn) := GetNameFromContainerID mon (tp.Log.ContainerID log) in
  let log := tp.Log.set_Names ns pod cn log in
  let log := tp.Log.set_HostPID (int32 (HostPID (ContextSys msg))) log in
  let log := tp.Log.set_PPID (int32 (PPID (ContextSys msg))) log in
  let log := tp.Log.set_PID (int32 (PID (ContextSys msg))) log in
  let log := tp.Log.set_UID (int32 (UID (ContextSys msg))) log in
  let log :=
    if (EventID (ContextSys msg) =? SYS_EXECVE)
       || (EventID (ContextSys msg) =? SYS_EXECVEAT)
    then tp.Log.set_Source
           (GetExecPath mon (ContainerID msg) (PPID (ContextSys msg))) log
    else tp.Log.set_Source
           (GetExecPath mon (ContainerID msg) (PID (ContextSys msg))) log in
  if String.eqb (tp.Log.Source log) "" then
    match slice_to (Comm (ContextSys msg))
                   (IndexByte (Comm (ContextSys msg)) x00) with
    | Some b => Some (tp.Log.set_Source (string_of_list_byte b) log)
    | None => None
    end
  else Some log.

(** The type assertions [v.(string)] and [v.(int32)] with their [ok]. *)
Definition as_string (a : Arg) : option string :=
  match a with ArgString s => Some s | _ => None end.
Definition as_int32 (a : Arg) : option Z :=
  match a with ArgInt32 n => Some n | _ => None end.
Definition as_sockaddr (a : Arg) : option (gmap string string) :=
  match a with ArgSockAddr m => Some m | _ => None end.

(** The recurring blocks of the cases: a variable declared at its zero value
    and assigned when the assertion holds. *)
Definition string_arg (a : Arg) : string := default "" (as_string a).
Definition int32_arg (a : Arg) : string := default "" (Itoa <$> as_int32 a).
(** A [nil] map ranges like the empty one. *)
Definition sockaddr_arg (a : Arg) : gmap string string := default ∅ (as_sockaddr a).

(** [for k, v := range sockAddr { log.Resource = log.Resource + ... }] *)
Definition append_sockaddr (walk : list (string * string)) (resource : string)
    : string :=
  foldl (λ r kv, r +:+ " " +:+ kv.1 +:+ "=" +:+ kv.2) resource walk.

(** What one received event comes to. *)
Inductive Outcome :=
  | Panic
  | Skipped
  | Handed (log : tp.Log.t).

(** The part of the loop body after the [switch]: the result message and
    the hand-over, [go mon.LogFeeder.PushLog(log)]. *)
Definition finish `{Externals} (mon : SystemMonitor) (msg : ContextCombined)
    (log : tp.Log.t) : Outcome :=
  let log :=
    if Retval (ContextSys msg) <? 0 then
      let message := getErrorMessage (Retval (ContextSys msg)) in
      if negb (String.eqb message "") then tp.Log.set_Result message log
      else tp.Log.set_Result
             ("Unknown (" +:+ Itoa (Retval (ContextSys msg)) +:+ ")") log
    else tp.Log.set_Result "Passed" log in
  match LogFeeder mon with
  | Some _ => Handed log
  | None => Skipped
  end.

(** The body of [case msg, valid := <-mon.ContextChan] for a valid [msg].
    [walk] is the order of the [range] over the socket address, should the
    event have one. *)
Definition UpdateLogs_msg `{Externals} (mon : SystemMonitor) (now : string)
    (walk : RangeOrder string) (msg : ContextCombined) : Outcome :=
  match BuildLogBase mon now msg with
  | None => Panic
  | Some log =>
    let id := EventID (ContextSys msg) in
    let args := ContextArgs msg in
    if id =? SYS_OPEN then
      let '(fileName, fileOpenFlags) :=
        match args with
        | [a0; a1] => (string_arg a0, string_arg a1)
        | _ => ("", "")
        end in
      let log := tp.Log.set_Operation "File" log in
      let log := tp.Log.set_Resource fileName log in
      let log := tp.Log.set_Data ("flags=" +:+ fileOpenFlags) log in
      if EnableAuditd mon && (Retval (ContextSys msg) =? PERMISSION_DENIED)
      then Skipped
      else finish mon msg log
    else if id =? SYS_OPENAT then
      let '(fd, fileName, fileOpenFlags) :=
        match args with
        | [a0; a1; a2] => (int32_arg a0, string_arg a1, string_arg a2)
        | _ => ("", "", "")
        end in
      let log := tp.Log.set_Operation "File" log in
      let log := tp.Log.set_Resource fileName log in
      let log := tp.Log.set_Data ("fd=" +:+ fd +:+ " flags=" +:+ fileOpenFlags) log in
      if EnableAuditd mon && (Retval (ContextSys msg) =? PERMISSION_DENIED)
      then Skipped
      else finish mon msg log
    else if id =? SYS_CLOSE then
      let fd := match args with [a0] => int32_arg a0 | _ => "" end in
      let log := tp.Log.set_Operation "File" log in
      let log := tp.Log.set_Resource (getSyscallName (int32 id)) log in
      let log := tp.Log.set_Data ("fd=" +:+ fd) log in
      finish mon msg log
    else if id =? SYS_SOCKET then
      let '(sockDomain, sockType, sockProtocol) :=
        match args with
        | [a0; a1; a2] => (string_arg a0, string_arg a1, int32_arg a2)
        | _ => ("", "", "")
        end in
      let log := tp.Log.set_Operation "Network" log in
      let log := tp.Log.set_Resource
        ("syscall=" +:+ getSyscallName (int32 id) +:+ " domain=" +:+ sockDomain
         +:+ " type=" +:+ sockType +:+ " protocol=" +:+ sockProtocol) log in
      let log := tp.Log.set_Data "" log in
      finish mon msg log
    else if id =? SYS_CONNECT then
      let '(fd, sockAddr) :=
        match args with
        | [a0; a1] => (int32_arg a0, sockaddr_arg a1)
        | _ => ("", ∅)
        end in
      let log := tp.Log.set_Operation "Network" log in
      let log := tp.Log.set_Resource ("syscall=" +:+ getSyscallName (int32 id)) log in
      let log := tp.Log.set_Resource
        (append_sockaddr (walk sockAddr) (tp.Log.Resource log)) log in
      let log := tp.Log.set_Data ("fd=" +:+ fd) log in
      finish mon msg log
    else if id =? SYS_ACCEPT then
      let '(fd, sockAddr) :=
        match args with
        | [a0; a1] => (int32_arg a0, sockaddr_arg a1)
        | _ => ("", ∅)
        end in
      let log := tp.Log.set_Operation "Network" log in
      let log := tp.Log.set_Resource ("syscall=" +:+ getSyscallName (int32 id)) log in
      let log := tp.Log.set_Data ("fd=" +:+ fd) log in
      let log := tp.Log.set_Resource
        (append_sockaddr (walk sockAddr) (tp.Log.Resource log)) log in
      finish mon msg log
    else if id =? SYS_BIND then
      let '(fd, sockAddr) :=
        match args with
        | [a0; a1] => (int32_arg a0, sockaddr_arg a1)
        | _ => ("", ∅)
        end in
      let log := tp.Log.set_Operation "Network" log in
      let log := tp.Log.set_Resource ("syscall=" +:+ getSyscallName (int32 id)) log in
      let log := tp.Log.set_Resource
        (append_sockaddr (walk sockAddr) (tp.Log.Resource log)) log in
      let log := tp.Log.set_Data ("fd=" +:+ fd) log in
      finish mon msg log
    else if id =? SYS_LISTEN then
      let fd := match args with [a0; _] => int32_arg a0 | _ => "" end in
      let log := tp.Log.set_Operation "Network" log in
      let log := tp.Log.set_Resource ("syscall=" +:+ getSyscallName (int32 id)) log in
      let log := tp.Log.set_Data ("fd=" +:+ fd) log in
      finish mon msg log
    else Skipped
  end.

(** The goroutine of [UpdateLogs]: in its loop, returned, or ended by a
    panic. The sources have no [recover], and a panic that is not recovered
    ends the process with all its goroutines. *)
Inductive Loop :=
  | Looping
  | Returned
  | Panicked.

(** The goroutine and what it shares with the others: whether a receive
    from [StopChan] can proceed, the events sent on [mon.ContextChan] and
    not yet received (oldest first), whether that channel is closed, and
    the goroutines started by [go mon.LogFeeder.PushLog(log)] whose call
    has not begun. *)
Record Run := mkRun {
  loop : Loop;
  StopChan : bool;
  ContextChan : list ContextCombined;
  closed : bool;
  waiting : list tp.Log.t;
}.

(** The start: [UpdateLogs] in its loop, nothing sent, [StopChan] not
    ready, no goroutine started. *)
Definition fresh : Run := mkRun Looping false [] false [].

(** What happens, one thing at a time: a producer sends an event or closes
    the channel, [StopChan] becomes ready, the [select] takes one of its
    two cases, a goroutine started by [go] begins its call of [PushLog]. *)
Inductive Action :=
  | Send (msg : ContextCombined)
  | Close
  | Fire
  | Receive (now : string) (walk : RangeOrder string) (msg : ContextCombined)
  | ReceiveClosed
  | Stop
  | Call (log : tp.Log.t).

(** The body of the [ContextChan] case for a valid [msg], the rest of the
    channel left behind: [go] starts a goroutine and goes on. *)
Definition received_msg `{Externals} (mon : SystemMonitor) (now : string)
    (walk : RangeOrder string) (msg : ContextCombined)
    (rest : list ContextCombined) (s : Run) : Run :=
  match UpdateLogs_msg mon now walk msg with
  | Panic => mkRun Panicked (StopChan s) rest (closed s) (waiting s)
  | Skipped => mkRun Looping (StopChan s) rest (closed s) (waiting s)
  | Handed log => mkRun Looping (StopChan s) rest (closed s) (waiting s ++ [log])
  end.

(** [UpdateLogs] among the other goroutines. The [select] has no order
    among its cases: with [StopChan] ready and an event in the channel it
    takes either. The channel hands the events over in the order they were
    sent; a closed and empty channel yields [valid = false] and the loop
    goes round. A goroutine started by [go] runs when the scheduler picks
    it: any one that waits can be the next to call. *)
Inductive UpdateLogs `{Externals} (mon : SystemMonitor) : Run → Action → Run → Prop :=
  | UpdateLogs_Send msg s :
      loop s ≠ Panicked → closed s = false →
      UpdateLogs mon s (Send msg)
        (mkRun (loop s) (StopChan s) (ContextChan s ++ [msg]) (closed s) (waiting s))
  | UpdateLogs_Close s :
      loop s ≠ Panicked → closed s = false →
      UpdateLogs mon s Close
        (mkRun (loop s) (StopChan s) (ContextChan s) true (waiting s))
  | UpdateLogs_Fire s :
      loop s ≠ Panicked →
      UpdateLogs mon s Fire
        (mkRun (loop s) true (ContextChan s) (closed s) (waiting s))
  | UpdateLogs_Receive now walk msg rest s :
      loop s = Looping → ContextChan s = msg :: rest → range_ok walk →
      UpdateLogs mon s (Receive now walk msg) (received_msg mon now walk msg rest s)
  | UpdateLogs_ReceiveClosed s :
      loop s = Looping → ContextChan s = [] → closed s = true →
      UpdateLogs mon s ReceiveClosed s
  | UpdateLogs_Stop s :
      loop s = Looping → StopChan s = true →
      UpdateLogs mon s Stop
        (mkRun Returned (StopChan s) (ContextChan s) (closed s) (waiting s))
  | UpdateLogs_Call log before after s :
      loop s ≠ Panicked → waiting s = before ++ log :: after →
      UpdateLogs mon s (Call log)
        (mkRun (loop s) (StopChan s) (ContextChan s) (closed s) (before ++ after)).

(** A run: the actions taken from one state to another, in order. *)
Inductive runs `{Externals} (mon : SystemMonitor) : Run → list Action → Run → Prop :=
  | runs_nil s : runs mon s [] s
  | runs_cons s a s' tr s'' :
      UpdateLogs mon s a s' → runs mon s' tr s'' → runs mon s (a :: tr) s''.

End monitor.

(* ===================================================================== *)
(** ** A concrete environment *)
(* ===================================================================== *)

(** Modelled from the spec: the errno table behind [getErrorMessage] is not
    in the files at hand. The spec has the builder "translate -retval
    through the errno table into a symbolic name (e.g., EACCES)", an unknown
    code giving no name; the entries are the base error numbers of Linux. *)
Definition errno_names : gmap Z string :=
  list_to_map
    [(1, "EPERM"); (2, "ENOENT"); (3, "ESRCH"); (4, "EINTR"); (5, "EIO");
     (6, "ENXIO"); (7, "E2BIG"); (8, "ENOEXEC"); (9, "EBADF"); (10, "ECHILD");
     (11, "EAGAIN"); (12, "ENOMEM"); (13, "EACCES"); (14, "EFAULT");
     (15, "ENOTBLK"); (16, "EBUSY"); (17, "EEXIST"); (18, "EXDEV");
     (19, "ENODEV"); (20, "ENOTDIR"); (21, "EISDIR"); (22, "EINVAL");
     (23, "ENFILE"); (24, "EMFILE"); (25, "ENOTTY"); (26, "ETXTBSY");
     (27, "EFBIG"); (28, "ENOSPC"); (29, "ESPIPE"); (30, "EROFS");
     (31, "EMLINK"); (32, "EPIPE"); (33, "EDOM"); (34, "ERANGE")].

Definition errno_message (retval : Z) : string :=
  default "" (errno_names !! (- retval)).

(** Modelled from the spec: [getSyscallName] is not in the files at hand.
    The spec's shapes name the calls ("close", "syscall=socket",
    "syscall=listen", "syscall=<NAME>" for connect, accept and bind); the
    numbers are those of Linux on x86-64. *)
Definition syscall_names : gmap Z string :=
  list_to_map
    [(2, "open"); (3, "close"); (41, "socket"); (42, "connect");
     (43, "accept"); (49, "bind"); (50, "listen"); (59, "execve");
     (257, "openat"); (322, "execveat")].

Definition syscall_name (id : Z) : string := default "" (syscall_names !! id).

(** Modelled from the spec: [GetExecPath] belongs to the process tracker,
    which is not in the files at hand; "exec_path(container_id, pid)" is a
    lookup by container and pid that is empty for an unknown process. *)
Definition exec_path_in (tracker : gmap (string * Z) string)
    (_ : monitor.SystemMonitor) (containerID : string) (pid : Z) : string :=
  default "" (tracker !! (containerID, pid)).

(** The environment of Linux on x86-64, over a given process tracker. *)
Definition linux_amd64 (tracker : gmap (string * Z) string) : monitor.Externals :=
  {| monitor.SYS_OPEN := 2;
     monitor.SYS_OPENAT := 257;
     monitor.SYS_CLOSE := 3;
     monitor.SYS_SOCKET := 41;
     monitor.SYS_CONNECT := 42;
     monitor.SYS_ACCEPT := 43;
     monitor.SYS_BIND := 49;
     monitor.SYS_LISTEN := 50;
     monitor.SYS_EXECVE := 59;
     monitor.SYS_EXECVEAT := 322;
     monitor.PERMISSION_DENIED := -13;
     monitor.getSyscallName := syscall_name;
     monitor.getErrorMessage := errno_message;
     monitor.GetExecPath := exec_path_in tracker;
     monitor.switch_cases :=
       bool_decide_unpack (NoDup [2; 257; 3; 41; 42; 43; 49; 50]) I |}.

(** A matcher that leaves the log as it is, and a marshaller that prints the
    resource: enough to run [PushLog]. *)
Definition plain_matcher : feeder.Matcher :=
  {| feeder.UpdateMatchedPolicy := λ _ log, log;
     feeder.Marshal := tp.Log.Resource |}.

(* ===================================================================== *)
(** ** Scenarios *)
(* ===================================================================== *)

Module scenario.
Import monitor.

(** [comm] of an nginx worker: the name, NUL padded to 16 bytes. *)
Definition comm_nginx : list byte :=
  [x6e; x67; x69; x6e; x78; x00; x00; x00;
   x00; x00; x00; x00; x00; x00; x00; x00].

(** The registry knows one container. *)
Definition registry : gmap string tp.Container.t :=
  {[ "c1" := tp.Container.mk "c1" "nginx" "node1" "10.0.0.1" "ns1" "web"
               "nginx:latest" [] "" ]}.

(** The tracker knows the exec path of one process. *)
Definition tracker : gmap (string * Z) string :=
  {[ ("c1", 12) := "/usr/sbin/cron" ]}.

Definition env : Externals := linux_amd64 tracker.

Definition fd0 : feeder.Feeder :=
  feeder.mkFeeder ":32767" "stdout" "" "node1" "10.0.0.1" ∅ true.

(** A monitor with the feeder attached, auditd off and on. *)
Definition mon : SystemMonitor := mkSystemMonitor "node1" registry false (Some fd0).
Definition mon_auditd : SystemMonitor := mkSystemMonitor "node1" registry true (Some fd0).

Definition event (cid : string) (ppid pid id retval : Z) (args : list Arg)
    : ContextCombined :=
  mkContextCombined cid (mkSyscallContext 42 ppid pid 0 id retval comm_nginx) args.

(** [openat(-100, "/etc/passwd", O_RDONLY)] in c1, returning [retval]. *)
Definition openat_passwd (retval : Z) : ContextCombined :=
  event "c1" 1 7 257 retval
    [ArgInt32 (-100); ArgString "/etc/passwd"; ArgString "O_RDONLY"].

(** The same call in a container the registry does not know. *)
Definition openat_elsewhere : ContextCombined :=
  event "c9" 1 7 257 0
    [ArgInt32 (-100); ArgString "/etc/passwd"; ArgString "O_RDONLY"].

(** [execve("/bin/sh")] by pid 99, child of pid 12. *)
Definition execve_sh : ContextCombined :=
  event "c1" 12 99 59 0 [ArgString "/bin/sh"].

(** [close(5)] failing with a number no errno has. *)
Definition close_odd : ContextCombined := event "c1" 1 7 3 (-9999) [ArgInt32 5].

Definition listen_fd_backlog : ContextCombined :=
  event "c1" 1 7 50 0 [ArgInt32 5; ArgInt32 128].

(** [connect] on descriptor 5 to an address of two entries. *)
Definition inet_addr : gmap string string :=
  {[ "sa_family" := "AF_INET"; "sin_port" := "80" ]}.
Definition connect_inet : ContextCombined :=
  event "c1" 1 7 42 0 [ArgInt32 5; ArgSockAddr inet_addr].

(** A second order for the range over a map: the first one backwards. *)
Definition backwards {V : Type} : RangeOrder V := λ m, reverse (map_to_list m).

(** Two logs as the matcher returns them: a plain one and a matched one. *)
Definition plain_log : tp.Log.t :=
  tp.Log.mk "2021-05-01T00:00:00Z" "node1" "ns1" "web" "c1" "nginx" 42 1 7 0
    "" "" "" "" "ContainerLog" "nginx" "File" "/etc/passwd"
    "fd=-100 flags=O_RDONLY" "" "Passed".
Definition matched_log : tp.Log.t :=
  tp.Log.mk "2021-05-01T00:00:01Z" "node1" "ns1" "web" "c1" "nginx" 42 1 7 0
    "deny-passwd" "7" "" "" "MatchedPolicy" "nginx" "File" "/etc/passwd"
    "fd=-100 flags=O_RDONLY" "Block" "Passed".

(** A log the matcher returned without a time. *)
Definition untimed_log : tp.Log.t := tp.Log.set_UpdatedTime "" plain_log.

Import feeder.

(** Subscriber A takes everything on stream 1, subscriber B the matched
    logs on stream 2; B's peer goes away; two logs are pushed. *)
Definition subscribed : State :=
  with_ls (addLogStruct "B" 2 "policy") (with_ls (addLogStruct "A" 1 "") init).
Definition B_gone : State := break_stream 2 subscribed.
Definition pushed : State :=
  (@PushLog plain_matcher fd0 matched_log
     (@PushLog plain_matcher fd0 plain_log B_gone).1).1.
Definition delivered : State := WatchLogs_turn map_to_list pushed.

(** The two calls of [WatchLogs] behind A and B. A has read [Running]
    before its turn; after the turn it is back at the test. *)
Definition before_turn : System :=
  mkSystem pushed [] [mkWatcher "A" InTurn; mkWatcher "B" AtTest].
Definition after_turn : System :=
  mkSystem delivered [] [mkWatcher "A" AtTest; mkWatcher "B" AtTest].

(** Two message subscribers, one with a filter, and two messages. *)
Definition listening : State :=
  with_ls (addMsgStruct "N" 4 "ERROR") (with_ls (addMsgStruct "M" 3 "") init).
Definition told : State :=
  (PushMessage fd0 "2021-05-01T00:00:03Z" "INFO" "started"
     (PushMessage fd0 "2021-05-01T00:00:02Z" "DEBUG" "probing" listening).1).1.

End scenario.

(* ===================================================================== *)
(** ** Vocabulary of the properties *)
(* ===================================================================== *)

(** The command name held in [comm]: the bytes before the first NUL. *)
Fixpoint until_NUL (b : list byte) : list byte :=
  match b with
  | [] => []
  | x :: rest => if Byte.eqb x x00 then [] else x :: until_NUL rest
  end.

Definition comm_name (comm : list byte) : string :=
  string_of_list_byte (until_NUL comm).

(** The source of a log: the tracked path, or the command name when there
    is none. *)
Definition path_or_comm (path : string) (comm : list byte) : string :=
  if decide (path = "") then comm_name comm else path.

(** The pid whose executable a log names: the parent for the exec family. *)
Definition source_pid `{monitor.Externals} (msg : monitor.ContextCombined) : Z :=
  if decide (monitor.EventID (monitor.ContextSys msg) = monitor.SYS_EXECVE
             ∨ monitor.EventID (monitor.ContextSys msg) = monitor.SYS_EXECVEAT)
  then monitor.PPID (monitor.ContextSys msg)
  else monitor.PID (monitor.ContextSys msg).

(** A log of type [type] passes the filter [filter] of a log subscriber. *)
Definition passes (filter type : string) : Prop :=
  filter = ""
  ∨ (filter = "policy" ∧ (type = "MatchedPolicy" ∨ type = "MatchedHostPolicy"))
  ∨ (filter = "system" ∧ (type = "ContainerLog" ∨ type = "HostLog")).

Global Instance passes_dec filter type : Decision (passes filter type).
Proof. unfold passes. apply _. Defined.

(** The calls of [Send] that a turn over [queue] owes the subscribers
    [subscribers]: item by item, to every subscriber that [want]s it. *)
Definition owed {S A : Type} (want : S → A → Prop)
    `{!∀ sub x, Decision (want sub x)} (alive : S → bool)
    (queue : list A) (subscribers : list S) : list (feeder.Sent S A) :=
  x ← queue;
  (λ sub, feeder.mkSent sub x (alive sub)) <$> filter (λ sub, want sub x) subscribers.

(** What a log subscriber wants: the logs that pass its filter. *)
Definition wants_log (lgs : feeder.LogStruct.t) (log : pb.Log.t) : Prop :=
  passes (feeder.LogStruct.Filter lgs) (pb.Log.Type_ log).

Global Instance wants_log_dec lgs log : Decision (wants_log lgs log).
Proof. unfold wants_log. apply _. Defined.

(** A stream on which [Send] succeeds. *)
Definition log_stream_up (broken : gset nat) (lgs : feeder.LogStruct.t) : bool :=
  bool_decide (feeder.LogStruct.Client lgs ∉ broken).
Definition msg_stream_up (broken : gset nat) (mgs : feeder.MsgStruct.t) : bool :=
  bool_decide (feeder.MsgStruct.Client mgs ∉ broken).

(** The sockaddr entries as the resource shows them: [ k=v] each. *)
Fixpoint sockaddr_text (entries : list (string * string)) : string :=
  match entries with
  | [] => ""
  | (k, v) :: entries => " " +:+ k +:+ "=" +:+ v +:+ sockaddr_text entries
  end.

(** The result message that the tail of the loop body computes. *)
Definition result_of `{monitor.Externals} (msg : monitor.ContextCombined) : string :=
  if monitor.Retval (monitor.ContextSys msg) <? 0 then
    if negb (String.eqb
               (monitor.getErrorMessage (monitor.Retval (monitor.ContextSys msg))) "")
    then monitor.getErrorMessage (monitor.Retval (monitor.ContextSys msg))
    else "Unknown (" +:+ Itoa (monitor.Retval (monitor.ContextSys msg)) +:+ ")"
  else "Passed".

(** The event ids that [UpdateLogs] has a case for. *)
Definition handled `{monitor.Externals} (id : Z) : Prop :=
  id ∈ [monitor.SYS_OPEN; monitor.SYS_OPENAT; monitor.SYS_CLOSE;
        monitor.SYS_SOCKET; monitor.SYS_CONNECT; monitor.SYS_ACCEPT;
        monitor.SYS_BIND; monitor.SYS_LISTEN].

(** The events that the auditd rule drops. *)
Definition auditd_drops `{monitor.Externals} (mon : monitor.SystemMonitor)
    (msg : monitor.ContextCombined) : Prop :=
  monitor.EnableAuditd mon = true
  ∧ (monitor.EventID (monitor.ContextSys msg) = monitor.SYS_OPEN
     ∨ monitor.EventID (monitor.ContextSys msg) = monitor.SYS_OPENAT)
  ∧ monitor.Retval (monitor.ContextSys msg) = monitor.PERMISSION_DENIED.

(* ===================================================================== *)
(** ** Ranging over a map *)
(* ===================================================================== *)

(** Two walks of a map with at most one entry are the same walk. *)
Lemma range_small {V : Type} (walk1 walk2 : RangeOrder V) (m : gmap string V) :
  range_ok walk1 → range_ok walk2 → (size m ≤ 1)%nat → walk1 m = walk2 m.
Proof.
  intros Hw1 Hw2 Hsz. specialize (Hw1 m). specialize (Hw2 m).
  rewrite <- length_map_to_list in Hsz.
  revert Hw1 Hw2 Hsz. generalize (map_to_list m) as l, (walk1 m), (walk2 m).
  intros [|kv [|kv' rest]] l1 l2 Hw1 Hw2 Hsz; [| |simpl in Hsz; lia].
  - apply Permutation_nil_r in Hw1, Hw2. congruence.
  - apply Permutation_singleton_r in Hw1, Hw2. congruence.
Qed.

(** A walk visits exactly the entries of the map. *)
Lemma range_elem_of {V : Type} (walk : RangeOrder V) (m : gmap string V) k v :
  range_ok walk → (k, v) ∈ walk m ↔ m !! k = Some v.
Proof. intros Hw. rewrite (Hw m). apply elem_of_map_to_list. Qed.

(* ===================================================================== *)
(** ** The comm field *)
(* ===================================================================== *)

Lemma IndexByte_range b c : -1 ≤ IndexByte b c < Z.of_nat (length b).
Proof.
  induction b as [|x b IH]; simpl; [lia|].
  destruct (Byte.eqb x c); [lia|].
  destruct (Z.ltb_spec (IndexByte b c) 0); lia.
Qed.

Lemma IndexByte_absent b c : c ∉ b → IndexByte b c = -1.
Proof.
  induction b as [|x b IH]; simpl; [done|].
  intros Hnin. apply not_elem_of_cons in Hnin as [Hne Hnin].
  destruct (Byte.eqb x c) eqn:E.
  - apply Byte.byte_dec_bl in E. congruence.
  - rewrite (IH Hnin). done.
Qed.

Lemma IndexByte_present b c : c ∈ b → 0 ≤ IndexByte b c.
Proof.
  induction b as [|x b IH]; simpl.
  - intros Hin. by apply elem_of_nil in Hin.
  - intros Hin. destruct (Byte.eqb x c) eqn:E; [lia|].
    apply elem_of_cons in Hin as [Heq|Hin].
    + symmetry in Heq. apply Byte.byte_dec_lb in Heq. congruence.
    + specialize (IH Hin). destruct (Z.ltb_spec (IndexByte b c) 0); lia.
Qed.

Lemma take_IndexByte b :
  x00 ∈ b → take (Z.to_nat (IndexByte b x00)) b = until_NUL b.
Proof.
  induction b as [|x b IH]; simpl.
  - intros Hin. by apply elem_of_nil in Hin.
  - intros Hin. destruct (Byte.eqb x x00) eqn:E; [done|].
    apply elem_of_cons in Hin as [Heq|Hin].
    { symmetry in Heq. apply Byte.byte_dec_lb in Heq. congruence. }
    pose proof (IndexByte_present _ _ Hin) as Hpos.
    destruct (Z.ltb_spec (IndexByte b x00) 0); [lia|].
    rewrite Z2Nat.inj_add by lia.
    replace (Z.to_nat (IndexByte b x00) + Z.to_nat 1)%nat
      with (S (Z.to_nat (IndexByte b x00))) by lia.
    simpl. by rewrite IH.
Qed.

(** With a NUL in it, the slice of [comm] is the command name. *)
Lemma slice_comm b :
  x00 ∈ b → slice_to b (IndexByte b x00) = Some (until_NUL b).
Proof.
  intros Hin. unfold slice_to.
  pose proof (IndexByte_present _ _ Hin). pose proof (IndexByte_range b x00).
  rewrite (proj2 (Z.leb_le _ _)) by lia.
  rewrite (proj2 (Z.leb_le _ _)) by lia.
  simpl. by rewrite take_IndexByte.
Qed.

(** Without one, the slice expression is [comm[:-1]]: a panic. *)
Lemma slice_comm_panic b : x00 ∉ b → slice_to b (IndexByte b x00) = None.
Proof. intros Hnin. unfold slice_to. by rewrite IndexByte_absent. Qed.

(* ===================================================================== *)
(** ** The log builder *)
(* ===================================================================== *)

Section LogBuilder.
Context `{!monitor.Externals}.
Import monitor.

Implicit Types (mon : SystemMonitor) (msg : ContextCombined) (log : tp.Log.t).

(** [BuildLogBase] in one piece: the fields it sets, and when it returns. *)
Lemma BuildLogBase_spec mon now msg :
  let path := GetExecPath mon (ContainerID msg) (source_pid msg) in
  let names := GetNameFromContainerID mon (ContainerID msg) in
  let filled src :=
    tp.Log.mk now (HostName mon) names.1.1 names.1.2 (ContainerID msg) names.2
      (int32 (HostPID (ContextSys msg))) (int32 (PPID (ContextSys msg)))
      (int32 (PID (ContextSys msg))) (int32 (UID (ContextSys msg)))
      "" "" "" "" "" src "" "" "" "" "" in
  BuildLogBase mon now msg =
    if decide (path = "")
    then if decide (x00 ∈ Comm (ContextSys msg))
         then Some (filled (comm_name (Comm (ContextSys msg))))
         else None
    else Some (filled path).
Proof.
  cbv zeta. unfold BuildLogBase, source_pid. cbn.
  destruct (GetNameFromContainerID mon (ContainerID msg)) as [[ns pod] cn].
  destruct (decide (EventID (ContextSys msg) = SYS_EXECVE
                    ∨ EventID (ContextSys msg) = SYS_EXECVEAT)) as [Hexec|Hexec];
    destruct (Z.eqb_spec (EventID (ContextSys msg)) SYS_EXECVE),
             (Z.eqb_spec (EventID (ContextSys msg)) SYS_EXECVEAT);
    try (exfalso; tauto); cbn.
  all: match goal with |- context [GetExecPath ?m ?c ?p] =>
         destruct (decide (GetExecPath m c p = "")) as [Hp|Hp];
         destruct (String.eqb_spec (GetExecPath m c p) ""); try done
       end.
  all: destruct (decide (x00 ∈ Comm (ContextSys msg))) as [Hin|Hnin];
    [ rewrite (slice_comm _ Hin) | rewrite (slice_comm_panic _ Hnin) ];
    try done.
  all: unfold comm_name; by rewrite Hp.
Qed.

(** The build fails in one case only: nothing tracked for the process, and
    a [comm] with no NUL in it. *)
Lemma BuildLogBase_panics mon now msg :
  BuildLogBase mon now msg = None ↔
  GetExecPath mon (ContainerID msg) (source_pid msg) = ""
  ∧ x00 ∉ Comm (ContextSys msg).
Proof.
  rewrite BuildLogBase_spec. cbv zeta.
  destruct (decide (GetExecPath mon (ContainerID msg) (source_pid msg) = ""));
    destruct (decide (x00 ∈ Comm (ContextSys msg))); intuition congruence.
Qed.

Lemma BuildLogBase_returns mon now msg :
  x00 ∈ Comm (ContextSys msg) → is_Some (BuildLogBase mon now msg).
Proof.
  intros Hin. destruct (BuildLogBase mon now msg) eqn:E; [by eexists|].
  apply BuildLogBase_panics in E as [_ Hnin]. done.
Qed.

(** C4. The source of a built log. For an [execve] or [execveat] event it is
    the tracked exec path of the event's ppid in the event's container, for
    any other event that of the event's pid; when that lookup is empty it is
    [comm] cut at its first NUL. This holds of every log that is built, and
    one is built whenever [comm] holds a NUL, as the kernel fills it;
    [BuildLogBase_panics] covers a [comm] without. *)
Theorem BuildLogBase_Source mon now msg :
  (∀ log, BuildLogBase mon now msg = Some log →
     (EventID (ContextSys msg) = SYS_EXECVE
      ∨ EventID (ContextSys msg) = SYS_EXECVEAT →
      tp.Log.Source log =
        path_or_comm
          (GetExecPath mon (ContainerID msg) (PPID (ContextSys msg)))
          (Comm (ContextSys msg)))
     ∧ (EventID (ContextSys msg) ≠ SYS_EXECVE →
        EventID (ContextSys msg) ≠ SYS_EXECVEAT →
        tp.Log.Source log =
          path_or_comm
            (GetExecPath mon (ContainerID msg) (PID (ContextSys msg)))
            (Comm (ContextSys msg))))
  ∧ (x00 ∈ Comm (ContextSys msg) → is_Some (BuildLogBase mon now msg)).
Proof.
  split; [|apply BuildLogBase_returns].
  intros log. rewrite BuildLogBase_spec. cbv zeta.
  unfold source_pid, path_or_comm.
  destruct (decide (EventID (ContextSys msg) = SYS_EXECVE
                    ∨ EventID (ContextSys msg) = SYS_EXECVEAT)) as [Hexec|Hother].
  - destruct (decide (GetExecPath mon (ContainerID msg)
                        (PPID (ContextSys msg)) = "")) as [Hp|Hp];
      [destruct (decide (x00 ∈ Comm (ContextSys msg))); [|done]|];
      intros [= <-]; cbn; (split; [done | tauto]).
  - destruct (decide (GetExecPath mon (ContainerID msg)
                        (PID (ContextSys msg)) = "")) as [Hp|Hp];
      [destruct (decide (x00 ∈ Comm (ContextSys msg))); [|done]|];
      intros [= <-]; cbn; (split; [tauto | done]).
Qed.

(** C8. Attribution. The namespace, pod and container name of every built
    log are those of the registry entry of the event's container id; with
    no entry all three are empty, and the lookup itself never fails: a
    build with no entry returns whenever [comm] holds a NUL. *)
Theorem BuildLogBase_attribution mon now msg :
  (∀ log, BuildLogBase mon now msg = Some log →
     match Containers mon !! ContainerID msg with
     | Some val =>
         tp.Log.NamespaceName log = tp.Container.NamespaceName val
         ∧ tp.Log.PodName log = tp.Container.ContainerGroupName val
         ∧ tp.Log.ContainerName log = tp.Container.ContainerName val
     | None =>
         tp.Log.NamespaceName log = ""
         ∧ tp.Log.PodName log = ""
         ∧ tp.Log.ContainerName log = ""
     end)
  ∧ (Containers mon !! ContainerID msg = None →
     GetNameFromContainerID mon (ContainerID msg) = ("", "", "")
     ∧ (x00 ∈ Comm (ContextSys msg) → is_Some (BuildLogBase mon now msg))).
Proof.
  split.
  - intros log. rewrite BuildLogBase_spec. cbn.
    unfold GetNameFromContainerID.
    destruct (Containers mon !! ContainerID msg) as [val|];
      destruct (decide (GetExecPath mon (ContainerID msg) (source_pid msg) = ""));
      destruct (decide (x00 ∈ Comm (ContextSys msg)));
      intros Hlog; simplify_eq; done.
  - intros Hnone. split.
    + unfold GetNameFromContainerID. by rewrite Hnone.
    + apply BuildLogBase_returns.
Qed.

End LogBuilder.

(* ===================================================================== *)
(** ** The loop body of [UpdateLogs] *)
(* ===================================================================== *)

Section UpdateLogs.
Context `{!monitor.Externals}.
Import monitor.

Implicit Types (mon : SystemMonitor) (msg : ContextCombined) (log : tp.Log.t).

(** The case constants of the [switch], two by two. *)
Ltac apart :=
  let H := fresh "Hnd" in
  pose proof switch_cases as H;
  repeat (apply NoDup_cons in H as [? H]);
  repeat match goal with
         | Hn : _ ∉ _ :: _ |- _ => apply not_elem_of_cons in Hn as [? Hn]
         end.

(** The [if]s of the [switch] one after the other, as equations on the id. *)
Ltac by_case msg :=
  destruct (Z.eqb_spec (EventID (ContextSys msg)) SYS_OPEN);
  [| destruct (Z.eqb_spec (EventID (ContextSys msg)) SYS_OPENAT);
  [| destruct (Z.eqb_spec (EventID (ContextSys msg)) SYS_CLOSE);
  [| destruct (Z.eqb_spec (EventID (ContextSys msg)) SYS_SOCKET);
  [| destruct (Z.eqb_spec (EventID (ContextSys msg)) SYS_CONNECT);
  [| destruct (Z.eqb_spec (EventID (ContextSys msg)) SYS_ACCEPT);
  [| destruct (Z.eqb_spec (EventID (ContextSys msg)) SYS_BIND);
  [| destruct (Z.eqb_spec (EventID (ContextSys msg)) SYS_LISTEN)]]]]]]].

(** The tuples that a case assigns from its arguments. *)
Ltac open_tuples :=
  repeat match goal with
         | |- context [match ?M with (_, _) => _ end] => destruct M
         end.

(** The tail of the loop body sets the result and nothing else. *)
Lemma finish_Handed mon msg shaped log :
  finish mon msg shaped = Handed log →
  is_Some (LogFeeder mon)
  ∧ log = tp.Log.set_Result (tp.Log.Result log) shaped
  ∧ (0 ≤ Retval (ContextSys msg) → tp.Log.Result log = "Passed")
  ∧ (Retval (ContextSys msg) < 0 →
     getErrorMessage (Retval (ContextSys msg)) ≠ "" →
     tp.Log.Result log = getErrorMessage (Retval (ContextSys msg)))
  ∧ (Retval (ContextSys msg) < 0 →
     getErrorMessage (Retval (ContextSys msg)) = "" →
     tp.Log.Result log =
       "Unknown (" +:+ Itoa (Retval (ContextSys msg)) +:+ ")").
Proof.
  unfold finish. destruct (LogFeeder mon) as [fd|]; [|done].
  intros [= <-]. split; [by eexists|].
  destruct (Z.ltb_spec (Retval (ContextSys msg)) 0) as [Hneg|Hpos].
  - destruct (String.eqb_spec (getErrorMessage (Retval (ContextSys msg))) "")
      as [Hnone|Hname]; cbn; repeat split; intros; first [done | lia].
  - cbn. repeat split; intros; first [done | lia].
Qed.

Lemma finish_attached mon msg shaped fd :
  LogFeeder mon = Some fd → ∃ log, finish mon msg shaped = Handed log.
Proof. intros Hfd. unfold finish. rewrite Hfd. by eexists. Qed.

(** With a feeder attached the tail hands over the shaped log, its result
    set. *)
Lemma finish_shaped mon msg shaped fd :
  LogFeeder mon = Some fd →
  finish mon msg shaped = Handed (tp.Log.set_Result (result_of msg) shaped).
Proof.
  intros Hfd. unfold finish, result_of. rewrite Hfd.
  destruct (Retval (ContextSys msg) <? 0); [|done].
  by destruct (negb _).
Qed.

(** A log that is handed over went through the tail. *)
Lemma Handed_finish mon now walk msg log :
  UpdateLogs_msg mon now walk msg = Handed log →
  ∃ base shaped,
    BuildLogBase mon now msg = Some base
    ∧ finish mon msg shaped = Handed log
    ∧ tp.Log.Source shaped = tp.Log.Source base
    ∧ tp.Log.NamespaceName shaped = tp.Log.NamespaceName base
    ∧ tp.Log.PodName shaped = tp.Log.PodName base
    ∧ tp.Log.ContainerName shaped = tp.Log.ContainerName base.
Proof.
  unfold UpdateLogs_msg.
  destruct (BuildLogBase mon now msg) as [base|]; [|done].
  intros Hout. exists base.
  by_case msg; repeat case_match; try discriminate;
    (eexists; split; [done|]; split; [exact Hout|]; done).
Qed.

(** C2, as the code has it. The result of a log that is handed over:
    ["Passed"] for a return value of 0 or more; for a negative one the name
    [getErrorMessage] gives, and when it gives none, ["Unknown (<n>)"] where
    <n> is the return value itself, with its minus sign. *)
Theorem UpdateLogs_Result mon now walk msg log :
  UpdateLogs_msg mon now walk msg = Handed log →
  (0 ≤ Retval (ContextSys msg) → tp.Log.Result log = "Passed")
  ∧ (Retval (ContextSys msg) < 0 →
     getErrorMessage (Retval (ContextSys msg)) ≠ "" →
     tp.Log.Result log = getErrorMessage (Retval (ContextSys msg)))
  ∧ (Retval (ContextSys msg) < 0 →
     getErrorMessage (Retval (ContextSys msg)) = "" →
     tp.Log.Result log =
       "Unknown (" +:+ Itoa (Retval (ContextSys msg)) +:+ ")").
Proof.
  intros Hout.
  apply Handed_finish in Hout as (base & shaped & _ & Hfin & _).
  apply finish_Handed in Hfin as (_ & _ & Hres). exact Hres.
Qed.

Lemma handled_iff id :
  handled id ↔
  id = SYS_OPEN ∨ id = SYS_OPENAT ∨ id = SYS_CLOSE ∨ id = SYS_SOCKET
  ∨ id = SYS_CONNECT ∨ id = SYS_ACCEPT ∨ id = SYS_BIND ∨ id = SYS_LISTEN.
Proof. unfold handled. rewrite !elem_of_cons, elem_of_nil. tauto. Qed.

(** The auditd rule: the two [continue]s of the [open] and [openat] cases. *)
Lemma denied_Skipped mon now walk msg :
  is_Some (BuildLogBase mon now msg) → auditd_drops mon msg →
  UpdateLogs_msg mon now walk msg = Skipped.
Proof.
  intros [base Hbase] (Hon & Hid & Hret).
  unfold UpdateLogs_msg. rewrite Hbase, Hon.
  destruct (Z.eqb_spec (EventID (ContextSys msg)) SYS_OPEN) as [Hopen|Hopen].
  - open_tuples. by rewrite (proj2 (Z.eqb_eq _ _) Hret).
  - destruct Hid as [Hid|Hid]; [done|].
    rewrite (proj2 (Z.eqb_eq _ _) Hid).
    open_tuples. by rewrite (proj2 (Z.eqb_eq _ _) Hret).
Qed.

(** C3, as the code has it. With the base log built and a feeder attached:
    an [open] or [openat] event that returns [PERMISSION_DENIED] while
    auditd is enabled is dropped; an event is handed to [PushLog] exactly
    when its id is one of the eight the [switch] has a case for and the
    auditd rule does not drop it; an event of any other id is dropped. *)
Theorem UpdateLogs_emits mon now walk msg :
  is_Some (BuildLogBase mon now msg) → is_Some (LogFeeder mon) →
  (auditd_drops mon msg → UpdateLogs_msg mon now walk msg = Skipped)
  ∧ ((∃ log, UpdateLogs_msg mon now walk msg = Handed log) ↔
     handled (EventID (ContextSys msg)) ∧ ¬ auditd_drops mon msg)
  ∧ (¬ handled (EventID (ContextSys msg)) →
     UpdateLogs_msg mon now walk msg = Skipped).
Proof.
  intros [base Hbase] [fd Hfd].
  unfold UpdateLogs_msg, auditd_drops. rewrite Hbase, handled_iff.
  by_case msg.
  1,2: open_tuples;
       destruct (EnableAuditd mon);
       destruct (Z.eqb_spec (Retval (ContextSys msg)) PERMISSION_DENIED);
       cbn [andb]; unfold finish; rewrite ?Hfd;
       (split; [intros (? & ? & ?); congruence|]);
       (split; [|intros Hn; exfalso; apply Hn; tauto]);
       (split; [intros [log Hlog];
                first [discriminate
                      | split; [tauto | intros (? & ? & ?); congruence]]
               |intros [_ Hn];
                first [by eexists | exfalso; apply Hn; tauto]]).
  1-6: open_tuples; unfold finish; rewrite Hfd;
       (split; [intros (? & [?|?] & ?); congruence|]);
       (split; [|intros Hn; exfalso; apply Hn; tauto]);
       (split; [intros _; split; [tauto|intros (? & [?|?] & ?); congruence]
               |intros _; by eexists]).
  split; [intros (? & [?|?] & ?); congruence|].
  split; [|done].
  split; [intros [log Hlog]; discriminate | intros [Hh _]; exfalso; tauto].
Qed.

(** What is handed over keeps the source and the names of the base log:
    the cases of the [switch] and the tail do not touch them. *)
Lemma Handed_keeps_base mon now walk msg log :
  UpdateLogs_msg mon now walk msg = Handed log →
  ∃ base, BuildLogBase mon now msg = Some base
    ∧ tp.Log.Source log = tp.Log.Source base
    ∧ tp.Log.NamespaceName log = tp.Log.NamespaceName base
    ∧ tp.Log.PodName log = tp.Log.PodName base
    ∧ tp.Log.ContainerName log = tp.Log.ContainerName base.
Proof.
  intros Hout.
  apply Handed_finish in Hout
    as (base & shaped & Hbase & Hfin & Hsrc & Hns & Hpod & Hcn).
  apply finish_Handed in Hfin as (_ & -> & _).
  exists base. cbn. by rewrite Hsrc, Hns, Hpod, Hcn.
Qed.

Lemma append_empty (s : string) : s +:+ "" = s.
Proof.
  induction s as [|c s IH]; [done|].
  change (String c (s +:+ "") = String c s). by rewrite IH.
Qed.

Lemma append_append (s1 s2 s3 : string) : (s1 +:+ s2) +:+ s3 = s1 +:+ s2 +:+ s3.
Proof.
  induction s1 as [|c s1 IH]; [done|].
  change (String c ((s1 +:+ s2) +:+ s3) = String c (s1 +:+ s2 +:+ s3)).
  by rewrite IH.
Qed.

Lemma append_sockaddr_text entries resource :
  append_sockaddr entries resource = resource +:+ sockaddr_text entries.
Proof.
  revert resource. unfold append_sockaddr.
  induction entries as [|[k v] entries IH]; intros resource; simpl.
  - by rewrite append_empty.
  - by rewrite IH, !append_append.
Qed.

(** The [listen] case over all its inputs. The event is shaped into
    operation [Network] and resource [syscall=listen]; the descriptor is
    read under [len(msg.ContextArgs) == 2], so the data is [fd=<FD>] when
    the event carries two arguments of which the first is the descriptor,
    and a bare [fd=] at any other number of arguments. *)
Theorem UpdateLogs_listen mon now walk msg base fd :
  BuildLogBase mon now msg = Some base → LogFeeder mon = Some fd →
  EventID (ContextSys msg) = SYS_LISTEN →
  getSyscallName (int32 SYS_LISTEN) = "listen" →
  ∃ log, UpdateLogs_msg mon now walk msg = Handed log
    ∧ tp.Log.Operation log = "Network"
    ∧ tp.Log.Resource log = "syscall=listen"
    ∧ (∀ n a1, ContextArgs msg = [ArgInt32 n; a1] →
         tp.Log.Data log = "fd=" +:+ Itoa n)
    ∧ (length (ContextArgs msg) ≠ 2%nat → tp.Log.Data log = "fd=").
Proof.
  intros Hbase Hfd Hid Hname. apart.
  unfold UpdateLogs_msg. rewrite Hbase.
  by_case msg; try congruence.
  rewrite Hid, Hname.
  match goal with |- context [finish mon msg ?shaped] =>
    destruct (finish_attached mon msg shaped fd Hfd) as [log Hlog]
  end.
  exists log. split; [done|].
  apply finish_Handed in Hlog as (_ & -> & _). cbn.
  split; [done|]. split; [done|]. split.
  - intros k a1 ->. done.
  - intros Hlen. destruct (ContextArgs msg) as [|a0 [|a1 [|a2 rest]]]; done.
Qed.

(** C7, as the code has it. For a [connect], [accept] or [bind] event that
    carries a descriptor and a socket address, the resource is
    [syscall=<NAME>] followed by [ k=v] for every entry of the address, each
    once, in the order in which that build walks the map. Two builds from
    one event walk the same entries; their resources are equal when the
    address has at most one entry. *)
Theorem UpdateLogs_sockaddr mon now walk1 walk2 msg base fd a0 m :
  BuildLogBase mon now msg = Some base → LogFeeder mon = Some fd →
  EventID (ContextSys msg) = SYS_CONNECT
  ∨ EventID (ContextSys msg) = SYS_ACCEPT
  ∨ EventID (ContextSys msg) = SYS_BIND →
  ContextArgs msg = [a0; ArgSockAddr m] →
  range_ok walk1 → range_ok walk2 →
  ∃ log1 log2,
    UpdateLogs_msg mon now walk1 msg = Handed log1
    ∧ UpdateLogs_msg mon now walk2 msg = Handed log2
    ∧ tp.Log.Resource log1 =
        "syscall=" +:+ getSyscallName (int32 (EventID (ContextSys msg)))
        +:+ sockaddr_text (walk1 m)
    ∧ tp.Log.Resource log2 =
        "syscall=" +:+ getSyscallName (int32 (EventID (ContextSys msg)))
        +:+ sockaddr_text (walk2 m)
    ∧ walk1 m ≡ₚ map_to_list m
    ∧ walk2 m ≡ₚ map_to_list m
    ∧ (size m ≤ 1 → tp.Log.Resource log1 = tp.Log.Resource log2)%nat.
Proof.
  intros Hbase Hfd Hid Hargs Hw1 Hw2. apart.
  pose proof (range_small walk1 walk2 m Hw1 Hw2) as Hsmall.
  unfold UpdateLogs_msg. rewrite Hbase, Hargs.
  by_case msg; try (exfalso; intuition congruence).
  all: eexists _, _;
    split; [apply (finish_shaped _ _ _ fd Hfd)|];
    split; [apply (finish_shaped _ _ _ fd Hfd)|]; cbn;
    rewrite !append_sockaddr_text, ?append_append;
    repeat split; try done; try apply Hw1; try apply Hw2;
    intros Hsz; by rewrite (Hsmall Hsz).
Qed.

End UpdateLogs.

(* ===================================================================== *)
(** ** The feeder *)
(* ===================================================================== *)

Section Feeder.
Context `{!feeder.Matcher}.
Import feeder.

Implicit Types (s : State) (fd : Feeder) (log : tp.Log.t).

(** The filter chain of [WatchLogs] sends exactly when the log passes. *)
Lemma filter_chain (filter type : string) :
  (String.eqb filter ""
   || String.eqb filter "policy"
      && (String.eqb type "MatchedPolicy" || String.eqb type "MatchedHostPolicy")
   || String.eqb filter "system"
      && (String.eqb type "ContainerLog" || String.eqb type "HostLog"))
  = bool_decide (passes filter type).
Proof.
  symmetry. unfold passes.
  destruct (String.eqb_spec filter ""),
           (String.eqb_spec filter "policy"),
           (String.eqb_spec filter "system"),
           (String.eqb_spec type "MatchedPolicy"),
           (String.eqb_spec type "MatchedHostPolicy"),
           (String.eqb_spec type "ContainerLog"),
           (String.eqb_spec type "HostLog"); simpl;
    first [ apply bool_decide_eq_true; subst; tauto
          | apply bool_decide_eq_false; subst; intuition congruence ].
Qed.

Lemma owed_nil {S A : Type} (want : S → A → Prop)
    `{!∀ sub x, Decision (want sub x)} (alive : S → bool) subscribers :
  owed want alive [] subscribers = [].
Proof. done. Qed.

Lemma owed_one {S A : Type} (want : S → A → Prop)
    `{!∀ sub x, Decision (want sub x)} (alive : S → bool) x subscribers :
  owed want alive [x] subscribers =
  (λ sub, mkSent sub x (alive sub)) <$> filter (λ sub, want sub x) subscribers.
Proof. unfold owed. rewrite bind_cons. simpl. by rewrite app_nil_r. Qed.

Lemma owed_cons {S A : Type} (want : S → A → Prop)
    `{!∀ sub x, Decision (want sub x)} (alive : S → bool) x queue subscribers :
  owed want alive (x :: queue) subscribers =
  owed want alive [x] subscribers ++ owed want alive queue subscribers.
Proof. rewrite owed_one. unfold owed. by rewrite bind_cons. Qed.

Lemma send_log_to_all_owed broken (pbLog : pb.Log.t) logStructs sends :
  send_log_to_all broken pbLog logStructs sends =
  sends ++ owed wants_log (log_stream_up broken) [pbLog] logStructs.
Proof.
  rewrite owed_one.
  revert sends. induction logStructs as [|lgs rest IH]; intros sends.
  - simpl. by rewrite app_nil_r.
  - unfold send_log_to_all in *. simpl. rewrite IH. clear IH.
    pose proof (filter_chain (LogStruct.Filter lgs) (pb.Log.Type_ pbLog)) as Hc.
    rewrite filter_cons.
    destruct (decide (wants_log lgs pbLog)) as [Hp|Hp]; unfold wants_log in Hp.
    + rewrite bool_decide_eq_true_2 in Hc by done.
      assert (Hsend :
        (if String.eqb (LogStruct.Filter lgs) "" then
           SendLog broken lgs pbLog sends
         else if String.eqb (LogStruct.Filter lgs) "policy"
                 && (String.eqb (pb.Log.Type_ pbLog) "MatchedPolicy"
                     || String.eqb (pb.Log.Type_ pbLog) "MatchedHostPolicy") then
           SendLog broken lgs pbLog sends
         else if String.eqb (LogStruct.Filter lgs) "system"
                 && (String.eqb (pb.Log.Type_ pbLog) "ContainerLog"
                     || String.eqb (pb.Log.Type_ pbLog) "HostLog") then
           SendLog broken lgs pbLog sends
         else sends) = SendLog broken lgs pbLog sends).
      { repeat match goal with |- context [if ?c then _ else _] =>
                 destruct c eqn:?; try done end. }
      rewrite Hsend. unfold SendLog, log_stream_up.
      rewrite <- app_assoc. done.
    + rewrite bool_decide_eq_false_2 in Hc by done.
      apply orb_false_elim in Hc as [Hc Hs].
      apply orb_false_elim in Hc as [He Hpol].
      by rewrite He, Hpol, Hs.
Qed.

(** The sends of one turn of [WatchLogs]. *)
Lemma drain_logs_owed broken queue logStructs sends :
  drain_logs broken queue logStructs sends =
  sends ++ owed wants_log (log_stream_up broken) queue logStructs.
Proof.
  revert sends. induction queue as [|pbLog queue IH]; intros sends.
  - by rewrite owed_nil, app_nil_r.
  - cbn [drain_logs].
    by rewrite IH, send_log_to_all_owed, (owed_cons _ _ pbLog queue), app_assoc.
Qed.

Lemma send_msg_to_all_owed broken (msg : pb.Message.t) msgStructs sends :
  send_msg_to_all broken msg msgStructs sends =
  sends ++ ((λ mgs, mkSent mgs msg (msg_stream_up broken mgs)) <$> msgStructs).
Proof.
  unfold send_msg_to_all. revert sends.
  induction msgStructs as [|mgs rest IH]; intros sends; simpl.
  - by rewrite app_nil_r.
  - rewrite IH. unfold SendMsg, msg_stream_up. by rewrite <- app_assoc.
Qed.

(** The sends of one turn of [WatchMessages]: every message of the queue,
    to every subscriber of the snapshot. *)
Lemma drain_msgs_all broken queue msgStructs sends :
  drain_msgs broken queue msgStructs sends =
  sends ++ (msg ← queue;
            (λ mgs, mkSent mgs msg (msg_stream_up broken mgs)) <$> msgStructs).
Proof.
  revert sends. induction queue as [|msg queue IH]; intros sends.
  - simpl. by rewrite app_nil_r.
  - cbn [drain_msgs]. rewrite IH, send_msg_to_all_owed, bind_cons.
    by rewrite app_assoc.
Qed.

(** An item that is owed was in the queue, to a subscriber of the
    snapshot that wants it; and the other way round. *)
Lemma elem_of_owed {S A : Type} (want : S → A → Prop)
    `{!∀ sub x, Decision (want sub x)} (alive : S → bool)
    (queue : list A) (subscribers : list S) (sent : Sent S A) :
  sent ∈ owed want alive queue subscribers ↔
  item sent ∈ queue ∧ via sent ∈ subscribers
  ∧ want (via sent) (item sent) ∧ ok sent = alive (via sent).
Proof.
  unfold owed. rewrite list_elem_of_bind. split.
  - intros (x & Hin & Hx). apply list_elem_of_fmap in Hin as (sub & -> & Hsub).
    apply list_elem_of_filter in Hsub as [Hw Hsub]. done.
  - intros (Hx & Hsub & Hw & Hok). exists (item sent). split; [|done].
    apply list_elem_of_fmap. exists (via sent). split.
    + destruct sent as [sub x b]. simpl in *. by subst.
    + by apply list_elem_of_filter.
Qed.


Lemma snapshot_msg walk (lsv : LogService) uid mgs :
  range_ok walk → MsgStructs lsv !! uid = Some mgs →
  mgs ∈ getMsgStructs walk lsv.
Proof.
  intros Hw Hin. unfold getMsgStructs.
  apply list_elem_of_fmap. exists (uid, mgs). split; [done|].
  by apply range_elem_of.
Qed.

(** Only a turn of [WatchLogs] calls [Send] on a log stream. *)
Lemma step_LogSends (s s' : System) :
  step s s' →
  LogSends s' = LogSends s
  ∨ ∃ walk, LogSends s' =
      LogSends s ++ owed wants_log (log_stream_up (Broken s)) (LogQueue s)
                      (getLogStructs walk (ls s)).
Proof.
  destruct 1; try (by left).
  - right. exists walk. cbn. apply drain_logs_owed.
  - left. unfold PushLog.
    by destruct (String.eqb (tp.Log.UpdatedTime (UpdateMatchedPolicy fd log)) "").
Qed.

(** C1. Filter correctness, in every state the feeder can reach: each call
    of [Send] on a log stream carried a log that passes the filter of the
    subscriber it went to, so the filter is [""], or ["policy"] with a
    matched type, or ["system"] with a plain type; and a subscriber whose
    filter is none of the three was never sent anything. *)
Theorem WatchLogs_filter (s : System) :
  reachable s →
  Forall (λ sent, passes (LogStruct.Filter (via sent)) (pb.Log.Type_ (item sent)))
         (LogSends s)
  ∧ ∀ lgs, LogStruct.Filter lgs ∉ [""; "policy"; "system"] →
           ∀ pbLog sent_ok, mkSent lgs pbLog sent_ok ∉ LogSends s.
Proof.
  intros Hreach.
  assert (Hall : Forall (λ sent, wants_log (via sent) (item sent)) (LogSends s)).
  { revert s Hreach.
    apply (rtc_ind_r
             (λ s : System,
                Forall (λ sent, wants_log (via sent) (item sent)) (LogSends s)));
      [constructor|].
    intros s1 s2 _ Hstep IH.
    destruct (step_LogSends _ _ Hstep) as [->|[walk ->]]; [done|].
    apply Forall_app. split; [done|].
    apply Forall_forall. intros sent Hsent.
    by apply elem_of_owed in Hsent as (_ & _ & Hwant & _). }
  split; [exact Hall|].
  intros lgs Hunknown pbLog sent_ok Hin.
  rewrite Forall_forall in Hall. apply Hall in Hin.
  unfold wants_log, passes in Hin. cbn in Hin.
  apply Hunknown. rewrite !elem_of_cons.
  destruct Hin as [->|[[-> _]|[-> _]]]; tauto.
Qed.



(** C10. One turn of [WatchMessages] sends every message of the queue to
    every subscriber of the table, once each and nothing besides, whatever
    the filter the subscriber registered with: [addMsgStruct] stores the
    filter and the delivery never reads it. *)
Theorem WatchMessages_ignores_filter walk s :
  range_ok walk →
  MsgSends (WatchMessages_turn walk s) =
    MsgSends s ++
    (msg ← MsgQueue s;
     (λ mgs, mkSent mgs msg (msg_stream_up (Broken s) mgs))
       <$> getMsgStructs walk (ls s))
  ∧ (∀ msg uid srv filter,
       msg ∈ MsgQueue s →
       MsgStructs (ls s) !! uid = Some (MsgStruct.mk srv filter) →
       mkSent (MsgStruct.mk srv filter) msg (bool_decide (srv ∉ Broken s))
         ∈ MsgSends (WatchMessages_turn walk s))
  ∧ (∀ uid srv filter,
       MsgStructs (addMsgStruct uid srv filter (ls s)) !! uid
       = Some (MsgStruct.mk srv filter)).
Proof.
  intros Hw. split; [apply drain_msgs_all|]. split.
  - intros msg uid srv filter Hq Hreg. cbn.
    rewrite drain_msgs_all. apply elem_of_app. right.
    apply list_elem_of_bind. exists msg. split; [|done].
    apply list_elem_of_fmap. exists (MsgStruct.mk srv filter). split; [done|].
    by eapply snapshot_msg.
  - intros uid srv filter. cbn. apply lookup_insert_eq.
Qed.

(** C9. A log that comes back from the policy matcher with an empty
    [UpdatedTime] is dropped: [PushLog] returns [nil] and the state it
    returns is the state it got, so nothing went to stdout or to the file
    and the queue of logs holds what it held. *)
Theorem PushLog_drops_untimed fd log s :
  tp.Log.UpdatedTime (UpdateMatchedPolicy fd log) = "" →
  PushLog fd log s = (s, None)
  ∧ Sink (PushLog fd log s).1 = Sink s
  ∧ LogQueue (PushLog fd log s).1 = LogQueue s.
Proof.
  intros Hempty.
  assert (Hdrop : PushLog fd log s = (s, None)).
  { unfold PushLog. by rewrite Hempty. }
  by rewrite Hdrop.
Qed.

(** A log with a time goes to the queue, behind what is there. *)
Lemma PushLog_queues fd log s :
  tp.Log.UpdatedTime (UpdateMatchedPolicy fd log) ≠ "" →
  LogQueue (PushLog fd log s).1 =
    LogQueue s ++ [to_pbLog fd (UpdateMatchedPolicy fd log)]
  ∧ (PushLog fd log s).2 = None.
Proof.
  intros Htime. unfold PushLog.
  by destruct (String.eqb_spec (tp.Log.UpdatedTime (UpdateMatchedPolicy fd log)) "").
Qed.

End Feeder.

(* ===================================================================== *)
(** ** The scenarios, run *)
(* ===================================================================== *)

Section Runs.
Import monitor feeder scenario.

Lemma map_to_list_ok {V : Type} : range_ok (V := V) map_to_list.
Proof. intros m. done. Qed.

Lemma backwards_ok {V : Type} : range_ok (V := V) backwards.
Proof. intros m. unfold backwards. apply reverse_Permutation. Qed.

Lemma comm_nginx_NUL : x00 ∈ comm_nginx.
Proof. apply (bool_decide_unpack _). vm_compute. exact I. Defined.

(** The exec of a shell by cron's child is logged under cron's path. *)
Lemma BuildLogBase_Source_witness :
  x00 ∈ Comm (ContextSys execve_sh)
  ∧ ∃ log, BuildLogBase (H := env) mon "t" execve_sh = Some log
      ∧ tp.Log.Source log = "/usr/sbin/cron".
Proof.
  split; [exact comm_nginx_NUL|].
  destruct (@BuildLogBase_Source env mon "t" execve_sh) as [Hsource Hbuilt].
  destruct (Hbuilt comm_nginx_NUL) as [log Hlog].
  exists log. split; [exact Hlog|].
  destruct (Hsource log Hlog) as [Hexec _].
  rewrite Hexec by (left; reflexivity). vm_compute. reflexivity.
Defined.

(** A log from c1 carries c1's names; one from an unknown container carries
    none, and is built all the same. *)
Lemma BuildLogBase_attribution_witness :
  (∃ log, BuildLogBase (H := env) mon "t" (openat_passwd 0) = Some log
     ∧ tp.Log.NamespaceName log = "ns1"
     ∧ tp.Log.PodName log = "web"
     ∧ tp.Log.ContainerName log = "nginx")
  ∧ (∃ log, BuildLogBase (H := env) mon "t" openat_elsewhere = Some log
       ∧ tp.Log.NamespaceName log = ""
       ∧ tp.Log.PodName log = ""
       ∧ tp.Log.ContainerName log = "").
Proof.
  split.
  - destruct (@BuildLogBase_attribution env mon "t" (openat_passwd 0))
      as [Hnames _].
    eexists. split; [vm_compute; reflexivity|].
    apply (Hnames _ eq_refl).
  - destruct (@BuildLogBase_attribution env mon "t" openat_elsewhere)
      as [Hnames [_ Hbuilt]]; [vm_compute; reflexivity|].
    destruct (Hbuilt comm_nginx_NUL) as [log Hlog].
    exists log. split; [exact Hlog|]. apply (Hnames _ Hlog).
Defined.

(** S2: a denied [openat] is logged as EACCES. *)
Lemma UpdateLogs_Result_witness :
  ∃ log, UpdateLogs_msg (H := env) mon "t" map_to_list (openat_passwd (-13))
         = Handed log
    ∧ tp.Log.Result log = "EACCES".
Proof.
  eexists. split; [vm_compute; reflexivity|].
  match goal with |- tp.Log.Result ?l = _ =>
    destruct (@UpdateLogs_Result env mon "t" map_to_list
                (openat_passwd (-13)) l eq_refl) as (_ & Hname & _)
  end.
  rewrite Hname; vm_compute; first [reflexivity | discriminate].
Defined.

(** A negative return value without a name is printed as it is, minus sign
    and all, and not as the code that was looked up, 9999 here. *)
Lemma UpdateLogs_Result_counterexample :
  Retval (ContextSys close_odd) = -9999
  ∧ errno_names !! 9999 = None
  ∧ ∃ log, UpdateLogs_msg (H := env) mon "t" map_to_list close_odd = Handed log
      ∧ tp.Log.Result log = "Unknown (-9999)"
      ∧ tp.Log.Result log ≠ "Unknown (" +:+ Itoa 9999 +:+ ")".
Proof.
  split; [reflexivity|]. split; [vm_compute; reflexivity|].
  eexists. split; [vm_compute; reflexivity|].
  split; [reflexivity|]. vm_compute. discriminate.
Qed.

(** S2 with auditd: the denied [openat] is dropped; the allowed one is not. *)
Lemma UpdateLogs_emits_witness :
  is_Some (BuildLogBase (H := env) mon_auditd "t" (openat_passwd (-13)))
  ∧ is_Some (BuildLogBase (H := env) mon_auditd "t" (openat_passwd 0))
  ∧ is_Some (LogFeeder mon_auditd)
  ∧ UpdateLogs_msg (H := env) mon_auditd "t" map_to_list (openat_passwd (-13))
    = Skipped
  ∧ ∃ log, UpdateLogs_msg (H := env) mon_auditd "t" map_to_list
             (openat_passwd 0) = Handed log.
Proof.
  assert (Hbase : ∀ r, is_Some (BuildLogBase (H := env) mon_auditd "t"
                                  (openat_passwd r))).
  { intros r. eexists. vm_compute. reflexivity. }
  assert (Hfd : is_Some (LogFeeder mon_auditd)).
  { eexists. reflexivity. }
  split; [apply Hbase|]. split; [apply Hbase|]. split; [exact Hfd|].
  split.
  - destruct (@UpdateLogs_emits env mon_auditd "t" map_to_list
                (openat_passwd (-13)) (Hbase _) Hfd) as (Hdrop & _).
    apply Hdrop.
    split; [reflexivity|]. split; [right; reflexivity | reflexivity].
  - destruct (@UpdateLogs_emits env mon_auditd "t" map_to_list
                (openat_passwd 0) (Hbase _) Hfd) as (_ & Hiff & _).
    apply Hiff. split.
    + apply (@handled_iff env). right. left. reflexivity.
    + intros (_ & _ & Hret). vm_compute in Hret. discriminate.
Defined.

(** An [execve] event is no [open] and no [openat], auditd is off, the base
    log is built and a feeder is attached: yet nothing is handed over. *)
Lemma UpdateLogs_emits_counterexample :
  EventID (ContextSys execve_sh) = SYS_EXECVE (Externals := env)
  ∧ EnableAuditd mon = false
  ∧ is_Some (BuildLogBase (H := env) mon "t" execve_sh)
  ∧ is_Some (LogFeeder mon)
  ∧ UpdateLogs_msg (H := env) mon "t" map_to_list execve_sh = Skipped.
Proof.
  split; [reflexivity|]. split; [reflexivity|].
  split; [apply BuildLogBase_returns, comm_nginx_NUL|].
  split; [by eexists|]. vm_compute. reflexivity.
Qed.

(** [listen] with descriptor and backlog. *)
Lemma UpdateLogs_listen_witness :
  ∃ log, UpdateLogs_msg (H := env) mon "t" map_to_list listen_fd_backlog
         = Handed log
    ∧ tp.Log.Operation log = "Network"
    ∧ tp.Log.Resource log = "syscall=listen"
    ∧ tp.Log.Data log = "fd=5".
Proof.
  destruct (BuildLogBase_returns (H := env) mon "t" listen_fd_backlog
              comm_nginx_NUL) as [base Hbase].
  destruct (@UpdateLogs_listen env mon "t" map_to_list listen_fd_backlog
              base fd0 Hbase eq_refl eq_refl eq_refl)
    as (log & Hlog & Hop & Hres & Hdata & _).
  exists log. split; [exact Hlog|]. split; [exact Hop|]. split; [exact Hres|].
  rewrite (Hdata 5 (ArgInt32 128) eq_refl). vm_compute. reflexivity.
Defined.


(** [connect] to an address of two entries, walked in two orders. *)
Lemma UpdateLogs_sockaddr_witness :
  ∃ log1 log2,
    UpdateLogs_msg (H := env) mon "t" map_to_list connect_inet = Handed log1
    ∧ UpdateLogs_msg (H := env) mon "t" backwards connect_inet = Handed log2
    ∧ tp.Log.Resource log1 =
        "syscall=connect" +:+ sockaddr_text (map_to_list inet_addr)
    ∧ tp.Log.Resource log2 =
        "syscall=connect" +:+ sockaddr_text (backwards inet_addr).
Proof.
  destruct (BuildLogBase_returns (H := env) mon "t" connect_inet
              comm_nginx_NUL) as [base Hbase].
  destruct (@UpdateLogs_sockaddr env mon "t" map_to_list backwards
              connect_inet base fd0 (ArgInt32 5) inet_addr Hbase eq_refl
              (or_introl eq_refl) eq_refl map_to_list_ok backwards_ok)
    as (log1 & log2 & H1 & H2 & Hr1 & Hr2 & _).
  exists log1, log2. split; [exact H1|]. split; [exact H2|].
  split; [exact Hr1 | exact Hr2].
Defined.

(** The two builds of the one event differ in their resource. *)
Lemma UpdateLogs_sockaddr_counterexample :
  range_ok (V := string) map_to_list
  ∧ range_ok (V := string) backwards
  ∧ ∃ log1 log2,
      UpdateLogs_msg (H := env) mon "t" map_to_list connect_inet = Handed log1
      ∧ UpdateLogs_msg (H := env) mon "t" backwards connect_inet = Handed log2
      ∧ tp.Log.Resource log1 = "syscall=connect sin_port=80 sa_family=AF_INET"
      ∧ tp.Log.Resource log2 = "syscall=connect sa_family=AF_INET sin_port=80"
      ∧ tp.Log.Resource log1 ≠ tp.Log.Resource log2.
Proof.
  split; [apply map_to_list_ok|]. split; [apply backwards_ok|].
  eexists _, _. split; [vm_compute; reflexivity|].
  split; [vm_compute; reflexivity|].
  split; [reflexivity|]. split; [reflexivity|]. vm_compute. discriminate.
Qed.

(** The run of S4 and S6 is a run of the feeder: A and B call [WatchLogs],
    B's peer goes away, two logs are pushed, A reads [Running] and takes
    its turn. *)
Lemma delivered_reachable :
  reachable (H := plain_matcher) before_turn
  ∧ step (H := plain_matcher) before_turn after_turn.
Proof.
  split.
  - unfold reachable.
    eapply rtc_r;
      [|apply (step_WatchLogs_test (H := plain_matcher) 0 "A"
                 (mkSystem pushed [] [mkWatcher "A" AtTest; mkWatcher "B" AtTest]));
        reflexivity].
    eapply rtc_r;
      [|apply (step_PushLog (H := plain_matcher) fd0 matched_log
                 (mkSystem (@PushLog plain_matcher fd0 plain_log B_gone).1 []
                    [mkWatcher "A" AtTest; mkWatcher "B" AtTest]))].
    eapply rtc_r;
      [|apply (step_PushLog (H := plain_matcher) fd0 plain_log
                 (mkSystem B_gone [] [mkWatcher "A" AtTest; mkWatcher "B" AtTest]))].
    eapply rtc_r;
      [|apply (step_break (H := plain_matcher) 2
                 (mkSystem subscribed [] [mkWatcher "A" AtTest; mkWatcher "B" AtTest]))].
    eapply rtc_r;
      [|apply (step_WatchLogs_enter (H := plain_matcher) "B" 2 "policy"
                 (mkSystem (with_ls (addLogStruct "A" 1 "") init) []
                    [mkWatcher "A" AtTest]))].
    eapply rtc_r;
      [|apply (step_WatchLogs_enter (H := plain_matcher) "A" 1 "" booted)].
    apply rtc_refl.
  - apply (step_WatchLogs_turn (H := plain_matcher) 0 "A" map_to_list before_turn);
      [reflexivity | apply map_to_list_ok].
Qed.

(** S4: A, with no filter, is sent both logs; B, with ["policy"], the
    matched one only. *)
Lemma WatchLogs_filter_witness :
  reachable (H := plain_matcher) after_turn
  ∧ (item <$> filter (λ sent, LogStruct.Client (via sent) = 1%nat)
                     (LogSends delivered))
    = [to_pbLog fd0 plain_log; to_pbLog fd0 matched_log]
  ∧ (item <$> filter (λ sent, LogStruct.Client (via sent) = 2%nat)
                     (LogSends delivered))
    = [to_pbLog fd0 matched_log]
  ∧ Forall (λ sent, passes (LogStruct.Filter (via sent))
                           (pb.Log.Type_ (item sent)))
           (LogSends delivered).
Proof.
  assert (Hreach : reachable (H := plain_matcher) after_turn).
  { destruct delivered_reachable as [Hpushed Hturn].
    eapply rtc_r; [exact Hpushed | exact Hturn]. }
  split; [exact Hreach|].
  split; [vm_compute; reflexivity|]. split; [vm_compute; reflexivity|].
  exact (proj1 (@WatchLogs_filter plain_matcher after_turn Hreach)).
Defined.



(** Both message subscribers are sent both messages, the one that asked
    for ["ERROR"] only included. *)
Lemma WatchMessages_ignores_filter_witness :
  range_ok (V := MsgStruct.t) map_to_list
  ∧ MsgStructs (ls told) !! "N" = Some (MsgStruct.mk 4 "ERROR")
  ∧ (pb.Message.Level <$> MsgQueue told) = ["DEBUG"; "INFO"]
  ∧ (pb.Message.Level ∘ item
       <$> filter (λ sent, MsgStruct.Client (via sent) = 4%nat)
                  (MsgSends (WatchMessages_turn map_to_list told)))
    = ["DEBUG"; "INFO"]
  ∧ length (MsgSends (WatchMessages_turn map_to_list told)) = 4%nat.
Proof.
  split; [apply map_to_list_ok|]. split; [vm_compute; reflexivity|].
  split; [vm_compute; reflexivity|].
  destruct (WatchMessages_ignores_filter map_to_list told map_to_list_ok)
    as (-> & _ & _).
  split; vm_compute; reflexivity.
Defined.

(** A log without a time changes nothing, with stdout as the sink. *)
Lemma PushLog_drops_untimed_witness :
  tp.Log.UpdatedTime (UpdateMatchedPolicy (Matcher := plain_matcher) fd0 untimed_log) = ""
  ∧ output fd0 = "stdout"
  ∧ PushLog (H := plain_matcher) fd0 untimed_log pushed = (pushed, None)
  ∧ Sink (PushLog (H := plain_matcher) fd0 untimed_log pushed).1 = Sink pushed
  ∧ LogQueue (PushLog (H := plain_matcher) fd0 untimed_log pushed).1
    = LogQueue pushed.
Proof.
  split; [reflexivity|]. split; [reflexivity|].
  exact (@PushLog_drops_untimed plain_matcher fd0 untimed_log pushed eq_refl).
Defined.

End Runs.

(* ===================================================================== *)
(** ** More of the log builder *)
(* ===================================================================== *)

(** How an unsigned 32-bit field of the event shows in the signed field of
    the log. *)
Definition logged_as (x y : Z) : Prop :=
  (0 ≤ x < 2 ^ 31 → y = x) ∧ (2 ^ 31 ≤ x < 2 ^ 32 → y = x - 2 ^ 32 ∧ y < 0).

(** The events a run sends on [ContextChan], those it receives, the logs
    it starts a goroutine for, and the logs [PushLog] is called with, each
    in the order of the run. *)
Definition sent (tr : list monitor.Action) : list monitor.ContextCombined :=
  omap (λ a, if a is monitor.Send msg then Some msg else None) tr.

Definition received (tr : list monitor.Action) : list monitor.ContextCombined :=
  omap (λ a, if a is monitor.Receive _ _ msg then Some msg else None) tr.

Definition started `{monitor.Externals} (mon : monitor.SystemMonitor)
    (tr : list monitor.Action) : list tp.Log.t :=
  omap (λ a,
    if a is monitor.Receive now walk msg then
      if monitor.UpdateLogs_msg mon now walk msg is monitor.Handed log
      then Some log else None
    else None) tr.

Definition called (tr : list monitor.Action) : list tp.Log.t :=
  omap (λ a, if a is monitor.Call log then Some log else None) tr.

(** The action ends the loop: the [select] took [StopChan], or the event
    received makes the body panic. *)
Definition ends_loop `{monitor.Externals} (mon : monitor.SystemMonitor)
    (a : monitor.Action) : Prop :=
  match a with
  | monitor.Stop => True
  | monitor.Receive now walk msg => monitor.UpdateLogs_msg mon now walk msg = monitor.Panic
  | _ => False
  end.

(** The gRPC record holds the fields of the log, each as it is. *)
Definition same_fields (log : tp.Log.t) (pbLog : pb.Log.t) : Prop :=
  pb.Log.UpdatedTime pbLog = tp.Log.UpdatedTime log
  ∧ pb.Log.HostName pbLog = tp.Log.HostName log
  ∧ pb.Log.NamespaceName pbLog = tp.Log.NamespaceName log
  ∧ pb.Log.PodName pbLog = tp.Log.PodName log
  ∧ pb.Log.ContainerID pbLog = tp.Log.ContainerID log
  ∧ pb.Log.ContainerName pbLog = tp.Log.ContainerName log
  ∧ pb.Log.HostPID pbLog = tp.Log.HostPID log
  ∧ pb.Log.PPID pbLog = tp.Log.PPID log
  ∧ pb.Log.PID pbLog = tp.Log.PID log
  ∧ pb.Log.UID pbLog = tp.Log.UID log
  ∧ pb.Log.PolicyName pbLog = tp.Log.PolicyName log
  ∧ pb.Log.Severity pbLog = tp.Log.Severity log
  ∧ pb.Log.Tags pbLog = tp.Log.Tags log
  ∧ pb.Log.Message pbLog = tp.Log.Message log
  ∧ pb.Log.Type_ pbLog = tp.Log.Type_ log
  ∧ pb.Log.Source pbLog = tp.Log.Source log
  ∧ pb.Log.Operation pbLog = tp.Log.Operation log
  ∧ pb.Log.Resource pbLog = tp.Log.Resource log
  ∧ pb.Log.Data pbLog = tp.Log.Data log
  ∧ pb.Log.Action pbLog = tp.Log.Action log
  ∧ pb.Log.Result pbLog = tp.Log.Result log.

(** A log that carries a time. *)
Definition timed (pbLog : pb.Log.t) : Prop := pb.Log.UpdatedTime pbLog ≠ "".

(** How many of the calls in progress are past a read of [Running] that
    gave [true], with their turn still to take. *)
Definition in_turn (ws : list feeder.Watcher) : nat :=
  length (filter (λ w, feeder.stage w = feeder.InTurn) ws).

Global Instance LogStruct_eq_dec : EqDecision feeder.LogStruct.t.
Proof. solve_decision. Defined.

Global Instance MsgStruct_eq_dec : EqDecision feeder.MsgStruct.t.
Proof. solve_decision. Defined.

Section Shapes.
Context `{!monitor.Externals}.
Import monitor.

Implicit Types (mon : SystemMonitor) (msg : ContextCombined) (log : tp.Log.t).

Ltac apart :=
  let H := fresh "Hnd" in
  pose proof switch_cases as H;
  repeat (apply NoDup_cons in H as [? H]);
  repeat match goal with
         | Hn : _ ∉ _ :: _ |- _ => apply not_elem_of_cons in Hn as [? Hn]
         end.

Ltac by_case msg :=
  destruct (Z.eqb_spec (EventID (ContextSys msg)) SYS_OPEN);
  [| destruct (Z.eqb_spec (EventID (ContextSys msg)) SYS_OPENAT);
  [| destruct (Z.eqb_spec (EventID (ContextSys msg)) SYS_CLOSE);
  [| destruct (Z.eqb_spec (EventID (ContextSys msg)) SYS_SOCKET);
  [| destruct (Z.eqb_spec (EventID (ContextSys msg)) SYS_CONNECT);
  [| destruct (Z.eqb_spec (EventID (ContextSys msg)) SYS_ACCEPT);
  [| destruct (Z.eqb_spec (EventID (ContextSys msg)) SYS_BIND);
  [| destruct (Z.eqb_spec (EventID (ContextSys msg)) SYS_LISTEN)]]]]]]].

Ltac open_tuples :=
  repeat match goal with
         | |- context [match ?M with (_, _) => _ end] => destruct M
         end.

(** The argument list by its length, up to the three that a case reads. *)
Ltac by_arity msg :=
  destruct (ContextArgs msg) as [|?a0 [|?a1 [|?a2 [|?a3 ?rest]]]] eqn:?Hargs.

(** Hand the shaped log over and name the result. *)
Ltac hand_over mon msg fd Hfd log :=
  match goal with |- context [finish mon msg ?shaped] =>
    let Hlog := fresh "Hlog" in
    destruct (finish_attached mon msg shaped fd Hfd) as [log Hlog];
    exists log; split; [exact Hlog|];
    apply finish_Handed in Hlog as (_ & -> & _)
  end.

Lemma not_dropped mon msg :
  ¬ auditd_drops mon msg →
  EventID (ContextSys msg) = SYS_OPEN ∨ EventID (ContextSys msg) = SYS_OPENAT →
  EnableAuditd mon && (Retval (ContextSys msg) =? PERMISSION_DENIED) = false.
Proof.
  intros Hno Hid. unfold auditd_drops in Hno.
  destruct (EnableAuditd mon); [|done].
  destruct (Z.eqb_spec (Retval (ContextSys msg)) PERMISSION_DENIED); [|done].
  exfalso. apply Hno. done.
Qed.

(** X1. [BuildLogBase] panics in one case and no other: the process has no
    tracked exec path and [comm] has no NUL byte in it. With a tracked path
    [comm] is not read, and the path is the source as it is. *)
Theorem BuildLogBase_panic_exactly mon now msg :
  (BuildLogBase mon now msg = None ↔
   GetExecPath mon (ContainerID msg) (source_pid msg) = ""
   ∧ Forall (λ b, b ≠ x00) (Comm (ContextSys msg)))
  ∧ (GetExecPath mon (ContainerID msg) (source_pid msg) ≠ "" →
     ∃ log, BuildLogBase mon now msg = Some log
       ∧ tp.Log.Source log = GetExecPath mon (ContainerID msg) (source_pid msg)).
Proof.
  rewrite BuildLogBase_spec. cbv zeta.
  assert (Hnul : x00 ∉ Comm (ContextSys msg)
                 ↔ Forall (λ b, b ≠ x00) (Comm (ContextSys msg))).
  { rewrite Forall_forall. split.
    - intros Hnin b Hb ->. done.
    - intros Hall Hin. by apply (Hall _ Hin). }
  destruct (decide (GetExecPath mon (ContainerID msg) (source_pid msg) = ""))
    as [Hp|Hp].
  - destruct (decide (x00 ∈ Comm (ContextSys msg))) as [Hin|Hnin].
    + split; [|done]. split; [done|]. intros [_ Hall].
      apply Hnul in Hall. done.
    + split; [|done]. split; [|done]. intros _. split; [done|]. by apply Hnul.
  - split.
    + split; [done|]. intros [? _]. done.
    + intros _. eexists. split; [done|]. done.
Qed.

(** X2. The numeric fields of a built log are the event's unsigned 32-bit
    fields converted by [int32]: the same number below 2^31, and 2^32 less,
    a negative number, from 2^31 on. *)
Theorem BuildLogBase_numbers mon now msg log :
  BuildLogBase mon now msg = Some log →
  logged_as (HostPID (ContextSys msg)) (tp.Log.HostPID log)
  ∧ logged_as (PPID (ContextSys msg)) (tp.Log.PPID log)
  ∧ logged_as (PID (ContextSys msg)) (tp.Log.PID log)
  ∧ logged_as (UID (ContextSys msg)) (tp.Log.UID log).
Proof.
  assert (Hconv : ∀ x, logged_as x (int32 x)).
  { intros x. unfold logged_as, int32. split.
    - intros Hx. rewrite Z.mod_small by lia. lia.
    - intros Hx.
      replace (x + 2 ^ 31) with ((x - 2 ^ 31) + 1 * 2 ^ 32) by lia.
      rewrite Z.mod_add by lia. rewrite Z.mod_small by lia. lia. }
  rewrite BuildLogBase_spec. cbv zeta.
  destruct (decide (GetExecPath mon (ContainerID msg) (source_pid msg) = ""));
    [destruct (decide (x00 ∈ Comm (ContextSys msg))); [|done]|];
    intros [= <-]; cbn;
    (split; [apply Hconv|]); (split; [apply Hconv|]);
    (split; apply Hconv).
Qed.

(** What is handed over is the base log with four fields set. *)
Lemma Handed_shaped mon now walk msg log :
  UpdateLogs_msg mon now walk msg = Handed log →
  ∃ base, BuildLogBase mon now msg = Some base
    ∧ log = tp.Log.mk (tp.Log.UpdatedTime base) (tp.Log.HostName base)
              (tp.Log.NamespaceName base) (tp.Log.PodName base)
              (tp.Log.ContainerID base) (tp.Log.ContainerName base)
              (tp.Log.HostPID base) (tp.Log.PPID base) (tp.Log.PID base)
              (tp.Log.UID base) (tp.Log.PolicyName base)
              (tp.Log.Severity base) (tp.Log.Tags base) (tp.Log.Message base)
              (tp.Log.Type_ base) (tp.Log.Source base)
              (tp.Log.Operation log) (tp.Log.Resource log) (tp.Log.Data log)
              (tp.Log.Action base) (tp.Log.Result log).
Proof.
  unfold UpdateLogs_msg.
  destruct (BuildLogBase mon now msg) as [base|]; [|done].
  intros Hout. exists base. split; [done|]. revert Hout.
  by_case msg; open_tuples;
    repeat match goal with
           | |- (if ?c then _ else _) = _ → _ => destruct c
           end;
    intros Hout; try discriminate;
    apply finish_Handed in Hout as (_ & -> & _); reflexivity.
Qed.

(** X3. The monitor fills in where and who, and leaves the verdict to the
    feeder: a log handed to [PushLog] carries the time of the build, the
    host of the monitor and the container id of the event, and its type,
    policy name, severity, tags, message and action are all empty. *)
Theorem Handed_unclassified mon now walk msg log :
  UpdateLogs_msg mon now walk msg = Handed log →
  tp.Log.UpdatedTime log = now
  ∧ tp.Log.HostName log = HostName mon
  ∧ tp.Log.ContainerID log = ContainerID msg
  ∧ tp.Log.Type_ log = "" ∧ tp.Log.PolicyName log = ""
  ∧ tp.Log.Severity log = "" ∧ tp.Log.Tags log = ""
  ∧ tp.Log.Message log = "" ∧ tp.Log.Action log = "".
Proof.
  intros Hout. apply Handed_shaped in Hout as (base & Hbase & ->).
  revert Hbase. rewrite BuildLogBase_spec. cbv zeta.
  destruct (decide (GetExecPath mon (ContainerID msg) (source_pid msg) = ""));
    [destruct (decide (x00 ∈ Comm (ContextSys msg))); [|done]|];
    intros [= <-]; cbn; done.
Qed.

(** X4. The arguments of an event never make the loop body panic, whatever
    their number and their dynamic types: it panics exactly when
    [BuildLogBase] does. And with no feeder attached nothing is handed
    over, for any event. *)
Theorem UpdateLogs_msg_panics mon now walk msg :
  (UpdateLogs_msg mon now walk msg = Panic ↔ BuildLogBase mon now msg = None)
  ∧ (LogFeeder mon = None → ∀ log, UpdateLogs_msg mon now walk msg ≠ Handed log).
Proof.
  split.
  - unfold UpdateLogs_msg.
    destruct (BuildLogBase mon now msg) as [base|]; [|done].
    split; [|done].
    by_case msg; open_tuples; unfold finish;
      repeat match goal with
             | |- context [if ?c then _ else _] => destruct c
             end;
      destruct (LogFeeder mon); discriminate.
  - intros Hnone log Hout.
    unfold UpdateLogs_msg in Hout.
    destruct (BuildLogBase mon now msg) as [base|]; [|done].
    revert Hout.
    by_case msg; open_tuples; unfold finish; rewrite ?Hnone;
      repeat match goal with
             | |- context [if ?c then _ else _] => destruct c
             end; discriminate.
Qed.

(** X5. An [open] event that the auditd rule does not drop is logged as a
    file operation on the path it carries, with its flags as data. The two
    arguments are read only when there are exactly two, and each only when
    it is a string: anything else leaves the piece empty. *)
Theorem UpdateLogs_open mon now walk msg base fd :
  BuildLogBase mon now msg = Some base → LogFeeder mon = Some fd →
  EventID (ContextSys msg) = SYS_OPEN → ¬ auditd_drops mon msg →
  ∃ log, UpdateLogs_msg mon now walk msg = Handed log
    ∧ tp.Log.Operation log = "File"
    ∧ (∀ path flags, ContextArgs msg = [ArgString path; ArgString flags] →
         tp.Log.Resource log = path ∧ tp.Log.Data log = "flags=" +:+ flags)
    ∧ (length (ContextArgs msg) ≠ 2%nat →
         tp.Log.Resource log = "" ∧ tp.Log.Data log = "flags=")
    ∧ (∀ a0 a1, ContextArgs msg = [a0; a1] →
         (as_string a0 = None → tp.Log.Resource log = "")
         ∧ (as_string a1 = None → tp.Log.Data log = "flags=")).
Proof.
  intros Hbase Hfd Hid Hkeep.
  pose proof (not_dropped mon msg Hkeep (or_introl Hid)) as Haud.
  unfold UpdateLogs_msg. rewrite Hbase, Hid, Z.eqb_refl.
  by_arity msg; cbn; rewrite Haud; hand_over mon msg fd Hfd log; cbn;
    (split; [done|]); (split; [intros ? ? [= -> ->]; done|]);
    (split; [intros Hlen; done|]); intros ? ? [= -> ->];
    unfold string_arg; split; intros ->; done.
Qed.

(** X6. An [openat] event that the auditd rule does not drop is logged as a
    file operation on its path, with the directory descriptor and the flags
    as data. The three arguments are read only when there are exactly
    three; a descriptor that is no [int32] leaves [fd=] bare. *)
Theorem UpdateLogs_openat mon now walk msg base fd :
  BuildLogBase mon now msg = Some base → LogFeeder mon = Some fd →
  EventID (ContextSys msg) = SYS_OPENAT → ¬ auditd_drops mon msg →
  ∃ log, UpdateLogs_msg mon now walk msg = Handed log
    ∧ tp.Log.Operation log = "File"
    ∧ (∀ dirfd path flags,
         ContextArgs msg = [ArgInt32 dirfd; ArgString path; ArgString flags] →
         tp.Log.Resource log = path
         ∧ tp.Log.Data log = "fd=" +:+ Itoa dirfd +:+ " flags=" +:+ flags)
    ∧ (length (ContextArgs msg) ≠ 3%nat →
         tp.Log.Resource log = "" ∧ tp.Log.Data log = "fd= flags=")
    ∧ (∀ a0 path flags,
         ContextArgs msg = [a0; ArgString path; ArgString flags] →
         as_int32 a0 = None →
         tp.Log.Data log = "fd= flags=" +:+ flags).
Proof.
  intros Hbase Hfd Hid Hkeep. apart.
  pose proof (not_dropped mon msg Hkeep (or_intror Hid)) as Haud.
  unfold UpdateLogs_msg. rewrite Hbase.
  by_case msg; try congruence.
  by_arity msg; cbn; rewrite Haud; hand_over mon msg fd Hfd log; cbn;
    (split; [done|]); (split; [intros ? ? ? [= -> -> ->]; done|]);
    (split; [intros Hlen; done|]); intros ? ? ? [= -> -> ->];
    unfold int32_arg; intros ->; done.
Qed.

(** X7. A [close] event is logged as a file operation whose resource is the
    name of the call and whose data is the descriptor; the descriptor is
    read when it is the only argument, and left out otherwise. *)
Theorem UpdateLogs_close mon now walk msg base fd :
  BuildLogBase mon now msg = Some base → LogFeeder mon = Some fd →
  EventID (ContextSys msg) = SYS_CLOSE →
  ∃ log, UpdateLogs_msg mon now walk msg = Handed log
    ∧ tp.Log.Operation log = "File"
    ∧ tp.Log.Resource log = getSyscallName (int32 SYS_CLOSE)
    ∧ (∀ n, ContextArgs msg = [ArgInt32 n] →
         tp.Log.Data log = "fd=" +:+ Itoa n)
    ∧ (length (ContextArgs msg) ≠ 1%nat → tp.Log.Data log = "fd=").
Proof.
  intros Hbase Hfd Hid. apart.
  unfold UpdateLogs_msg. rewrite Hbase.
  by_case msg; try congruence. rewrite Hid.
  by_arity msg; hand_over mon msg fd Hfd log; cbn;
    (split; [done|]); (split; [done|]);
    (split; [intros ? [= ->]; done | intros Hlen; done]).
Qed.

(** X8. A [socket] event is logged as a network operation with no data; its
    resource names the call, the domain, the type and the protocol, the
    protocol in decimal. With another number of arguments than three the
    three values are empty. *)
Theorem UpdateLogs_socket mon now walk msg base fd :
  BuildLogBase mon now msg = Some base → LogFeeder mon = Some fd →
  EventID (ContextSys msg) = SYS_SOCKET →
  ∃ log, UpdateLogs_msg mon now walk msg = Handed log
    ∧ tp.Log.Operation log = "Network"
    ∧ tp.Log.Data log = ""
    ∧ (∀ domain type protocol,
         ContextArgs msg = [ArgString domain; ArgString type; ArgInt32 protocol] →
         tp.Log.Resource log =
           "syscall=" +:+ getSyscallName (int32 SYS_SOCKET)
           +:+ " domain=" +:+ domain +:+ " type=" +:+ type
           +:+ " protocol=" +:+ Itoa protocol)
    ∧ (length (ContextArgs msg) ≠ 3%nat →
         tp.Log.Resource log =
           "syscall=" +:+ getSyscallName (int32 SYS_SOCKET)
           +:+ " domain= type= protocol=").
Proof.
  intros Hbase Hfd Hid. apart.
  unfold UpdateLogs_msg. rewrite Hbase.
  by_case msg; try congruence. rewrite Hid.
  by_arity msg; cbn; hand_over mon msg fd Hfd log; cbn;
    (split; [done|]); (split; [done|]);
    (split; [intros ? ? ? [= -> -> ->]; done | intros Hlen; done]).
Qed.

(** X9. A [connect], [accept] or [bind] event is logged as a network
    operation with the descriptor as data. When the event does not carry
    two arguments, or the second is no socket address, the resource is the
    name of the call and nothing more. *)
Theorem UpdateLogs_sockaddr_data mon now walk msg base fd :
  BuildLogBase mon now msg = Some base → LogFeeder mon = Some fd →
  EventID (ContextSys msg) = SYS_CONNECT
  ∨ EventID (ContextSys msg) = SYS_ACCEPT
  ∨ EventID (ContextSys msg) = SYS_BIND →
  range_ok walk →
  ∃ log, UpdateLogs_msg mon now walk msg = Handed log
    ∧ tp.Log.Operation log = "Network"
    ∧ (∀ n a1, ContextArgs msg = [ArgInt32 n; a1] →
         tp.Log.Data log = "fd=" +:+ Itoa n)
    ∧ (length (ContextArgs msg) ≠ 2%nat →
         tp.Log.Data log = "fd="
         ∧ tp.Log.Resource log =
             "syscall=" +:+ getSyscallName (int32 (EventID (ContextSys msg))))
    ∧ (∀ a0 a1, ContextArgs msg = [a0; a1] → as_sockaddr a1 = None →
         tp.Log.Resource log =
           "syscall=" +:+ getSyscallName (int32 (EventID (ContextSys msg)))).
Proof.
  intros Hbase Hfd Hid Hrange. apart.
  assert (Hwalk : walk ∅ = []).
  { apply Permutation_nil_r. rewrite (Hrange ∅). by rewrite map_to_list_empty. }
  clear Hrange.
  unfold UpdateLogs_msg. rewrite Hbase.
  by_case msg; try (exfalso; intuition congruence).
  all: by_arity msg; cbn; hand_over mon msg fd Hfd log; cbn;
    rewrite ?Hwalk; cbn;
    (split; [done|]); (split; [intros ? ? [= -> ->]; done|]);
    (split; [intros Hlen; done|]); intros ? ? [= -> ->];
    unfold sockaddr_arg; intros ->; cbn; rewrite Hwalk; done.
Qed.

(** The body of the [ContextChan] case takes the event off the channel and
    touches nothing else but the goroutines it starts. *)
Lemma received_msg_spec mon now walk msg rest s :
  ContextChan (received_msg mon now walk msg rest s) = rest
  ∧ StopChan (received_msg mon now walk msg rest s) = StopChan s
  ∧ closed (received_msg mon now walk msg rest s) = closed s
  ∧ match UpdateLogs_msg mon now walk msg with
    | Panic =>
        loop (received_msg mon now walk msg rest s) = Panicked
        ∧ waiting (received_msg mon now walk msg rest s) = waiting s
    | Skipped =>
        loop (received_msg mon now walk msg rest s) = Looping
        ∧ waiting (received_msg mon now walk msg rest s) = waiting s
    | Handed log =>
        loop (received_msg mon now walk msg rest s) = Looping
        ∧ waiting (received_msg mon now walk msg rest s) = waiting s ++ [log]
    end.
Proof.
  unfold received_msg. by destruct (UpdateLogs_msg mon now walk msg).
Qed.

(** The channel is a queue. *)
Lemma runs_fifo mon s tr s' :
  runs mon s tr s' →
  received tr ++ ContextChan s' = ContextChan s ++ sent tr.
Proof.
  induction 1 as [s|s a s1 tr s' Hstep _ IH]; [by rewrite app_nil_r|].
  destruct Hstep as [msg s Hlive Hopen|s Hlive Hopen|s Hlive
                    |now walk msg rest s Hloop Hchan Hwalk
                    |s Hloop Hchan Hshut|s Hloop Hstop
                    |log before after s Hlive Hwait];
    cbn in IH |- *; fold (received tr) (sent tr); try exact IH.
  - rewrite IH. by rewrite <- app_assoc.
  - destruct (received_msg_spec mon now walk msg rest s) as (Hrest & _).
    rewrite Hrest in IH. rewrite Hchan. cbn. by rewrite IH.
Qed.

(** Every goroutine started calls once, in some order. *)
Lemma runs_calls mon s tr s' :
  runs mon s tr s' →
  called tr ++ waiting s' ≡ₚ waiting s ++ started mon tr.
Proof.
  induction 1 as [s|s a s1 tr s' Hstep _ IH]; [by rewrite app_nil_r|].
  destruct Hstep as [msg s Hlive Hopen|s Hlive Hopen|s Hlive
                    |now walk msg rest s Hloop Hchan Hwalk
                    |s Hloop Hchan Hshut|s Hloop Hstop
                    |log before after s Hlive Hwait];
    cbn in IH |- *; fold (called tr) (started mon tr); try exact IH.
  - destruct (received_msg_spec mon now walk msg rest s) as (_ & _ & _ & Hout).
    destruct (UpdateLogs_msg mon now walk msg) as [| |log];
      destruct Hout as [_ Hwait]; rewrite Hwait in IH; [exact IH..|].
    rewrite IH. by rewrite <- app_assoc.
  - rewrite Hwait, IH. rewrite <- !app_assoc. cbn.
    by rewrite Permutation_middle.
Qed.

(** Out of the loop, nothing is received and no goroutine started; after a
    panic nothing happens. *)
Lemma runs_ended mon s tr s' :
  runs mon s tr s' → loop s ≠ Looping →
  received tr = [] ∧ started mon tr = [] ∧ loop s' = loop s
  ∧ (loop s = Panicked → tr = []).
Proof.
  induction 1 as [s|s a s1 tr s' Hstep _ IH]; intros Hout; [done|].
  destruct Hstep; cbn in IH |- *; try congruence;
    destruct (IH Hout) as (? & ? & ? & ?); repeat split; try done;
    intros; congruence.
Qed.

Lemma runs_app mon s tr1 tr2 s'' :
  runs mon s (tr1 ++ tr2) s'' →
  ∃ s', runs mon s tr1 s' ∧ runs mon s' tr2 s''.
Proof.
  revert s. induction tr1 as [|a tr1 IH]; intros s Hrun; cbn in Hrun.
  - exists s. split; [constructor | done].
  - inversion Hrun as [|? ? s1 ? ? Hstep Hrest]; subst.
    destruct (IH _ Hrest) as (s' & Hrun1 & Hrun2).
    exists s'. split; [by econstructor | done].
Qed.

(** The two ways out of the loop, and no third. *)
Lemma UpdateLogs_leaves mon s a s' :
  UpdateLogs mon s a s' → loop s = Looping →
  (ends_loop mon a → loop s' ≠ Looping ∧ (a ≠ Stop → loop s' = Panicked))
  ∧ (¬ ends_loop mon a → loop s' = Looping).
Proof.
  intros Hstep Hloop.
  destruct Hstep as [msg s Hlive Hopen|s Hlive Hopen|s Hlive
                    |now walk msg rest s _ Hchan Hwalk
                    |s _ Hchan Hshut|s _ Hstop
                    |log before after s Hlive Hwait];
    cbn; try (split; [done | done]).
  - destruct (received_msg_spec mon now walk msg rest s) as (_ & _ & _ & Hout).
    destruct (UpdateLogs_msg mon now walk msg) as [| |log];
      destruct Hout as [Hl _]; rewrite Hl; split; done.
Qed.

(** X10. [UpdateLogs] among the other goroutines, over every run from the
    start. The events are received in the order they were sent, none twice
    and none skipped. The logs [PushLog] is called with, and those of the
    goroutines that still wait, are the logs of the events that reached
    the end of the loop body, each once; the order of the calls is the
    scheduler's, not that of the events. The loop goes on until the
    [select] takes [StopChan] or an event makes the body panic, and not
    because [StopChan] is ready; after that no event is received and no
    goroutine started, and after a panic nothing happens at all. *)
Theorem UpdateLogs_runs mon tr s :
  runs mon fresh tr s →
  received tr ++ ContextChan s = sent tr
  ∧ called tr ++ waiting s ≡ₚ started mon tr
  ∧ (loop s = Looping ↔ Forall (λ a, ¬ ends_loop mon a) tr)
  ∧ (∀ tr1 a tr2, tr = tr1 ++ a :: tr2 → ends_loop mon a →
       received tr2 = [] ∧ started mon tr2 = [] ∧ (a ≠ Stop → tr2 = [])).
Proof.
  intros Hrun.
  split; [exact (runs_fifo _ _ _ _ Hrun)|].
  split; [exact (runs_calls _ _ _ _ Hrun)|].
  assert (Hgoes : ∀ s0 tr0 s0', runs mon s0 tr0 s0' → loop s0 = Looping →
            (loop s0' = Looping ↔ Forall (λ a, ¬ ends_loop mon a) tr0)).
  { clear. induction 1 as [s|s a s1 tr s' Hstep Hrest IH]; intros Hloop.
    - split; [constructor | done].
    - destruct (UpdateLogs_leaves _ _ _ _ Hstep Hloop) as [Hends Hnot].
      split.
      + intros Hend. constructor.
        * intros Ha. destruct (Hends Ha) as [Hout _].
          destruct (runs_ended _ _ _ _ Hrest Hout) as (_ & _ & Hsame & _).
          congruence.
        * apply IH; [|done]. apply Hnot. intros Ha.
          destruct (Hends Ha) as [Hout _].
          destruct (runs_ended _ _ _ _ Hrest Hout) as (_ & _ & Hsame & _).
          congruence.
      + intros Hall. apply Forall_cons in Hall as [Ha Hall].
        apply IH; [by apply Hnot | done]. }
  split; [exact (Hgoes _ _ _ Hrun eq_refl)|].
  intros tr1 a tr2 -> Ha.
  apply runs_app in Hrun as (s1 & Hrun1 & Hrun2).
  inversion Hrun2 as [|? ? s2 ? ? Hstep Hrest]; subst.
  assert (Hloop : loop s1 = Looping).
  { destruct Hstep; cbn in Ha; done. }
  destruct (UpdateLogs_leaves _ _ _ _ Hstep Hloop) as [Hends _].
  destruct (Hends Ha) as [Hout Hpanic].
  destruct (runs_ended _ _ _ _ Hrest Hout) as (Hrecv & Hstart & _ & Hdead).
  split; [done|]. split; [done|]. intros Hstop. by apply Hdead, Hpanic.
Qed.

End Shapes.

(* ===================================================================== *)
(** ** More of the feeder *)
(* ===================================================================== *)

Section Queues.
Context `{!feeder.Matcher}.
Import feeder.

Implicit Types (s : State) (fd : Feeder) (log : tp.Log.t).

Lemma if_nonempty_id (v : string) : if_nonempty v = v.
Proof. by destruct v. Qed.

Lemma owed_app {S A : Type} (want : S → A → Prop)
    `{!∀ sub x, Decision (want sub x)} (alive : S → bool) q1 q2 subscribers :
  owed want alive (q1 ++ q2) subscribers =
  owed want alive q1 subscribers ++ owed want alive q2 subscribers.
Proof. unfold owed. by rewrite bind_app. Qed.

(** X11. A log that comes back from the matcher with a time is queued once,
    behind what is queued: the gRPC record holds every field of the
    decorated log as it is (the guards on the length of the optional
    fields change nothing) and the cluster name of the feeder. *)
Theorem PushLog_copies_fields fd log s :
  tp.Log.UpdatedTime (UpdateMatchedPolicy fd log) ≠ "" →
  ∃ pbLog,
    LogQueue (PushLog fd log s).1 = LogQueue s ++ [pbLog]
    ∧ (PushLog fd log s).2 = None
    ∧ same_fields (UpdateMatchedPolicy fd log) pbLog
    ∧ pb.Log.ClusterName pbLog = clusterName fd.
Proof.
  intros Htime. unfold PushLog.
  destruct (String.eqb_spec (tp.Log.UpdatedTime (UpdateMatchedPolicy fd log)) "");
    [done|].
  eexists. split; [reflexivity|]. split; [reflexivity|].
  unfold same_fields, to_pbLog. cbn. rewrite !if_nonempty_id.
  repeat split.
Qed.

(** X12. The local sink of a log with a time: one line on stdout when the
    output is ["stdout"], nothing when it is ["none"], and one
    [StrToFile] to the output path for any other value. The subscriber
    tables, the message queue and the sends made so far are as before. *)
Theorem PushLog_sink fd log s :
  tp.Log.UpdatedTime (UpdateMatchedPolicy fd log) ≠ "" →
  (output fd = "stdout" →
     Sink (PushLog fd log s).1
     = Sink s ++ [Println (Marshal (UpdateMatchedPolicy fd log))])
  ∧ (output fd = "none" → Sink (PushLog fd log s).1 = Sink s)
  ∧ (output fd ≠ "stdout" → output fd ≠ "none" →
     Sink (PushLog fd log s).1
     = Sink s ++ [StrToFile (Marshal (UpdateMatchedPolicy fd log)) (output fd)])
  ∧ ls (PushLog fd log s).1 = ls s
  ∧ MsgQueue (PushLog fd log s).1 = MsgQueue s
  ∧ LogSends (PushLog fd log s).1 = LogSends s
  ∧ MsgSends (PushLog fd log s).1 = MsgSends s
  ∧ Running (PushLog fd log s).1 = Running s.
Proof.
  intros Htime. unfold PushLog.
  destruct (String.eqb_spec (tp.Log.UpdatedTime (UpdateMatchedPolicy fd log)) "");
    [done|]. cbn.
  destruct (String.eqb_spec (output fd) "stdout") as [Hout|Hout],
           (String.eqb_spec (output fd) "none") as [Hnone|Hnone]; cbn;
    repeat split; try done; try congruence.
  all: intros; rewrite Hout in Hnone; discriminate.
Qed.

(** X13. No log without a time ever reaches a subscriber: in every state the
    feeder can be in, the logs in the queue and the logs that were sent all
    carry a time. *)
Theorem no_untimed_log_sent (s : System) :
  reachable s →
  Forall timed (LogQueue s)
  ∧ Forall (λ sent, timed (item sent)) (LogSends s).
Proof.
  revert s. apply (rtc_ind_r
    (λ s : System, Forall timed (LogQueue s)
          ∧ Forall (λ sent, timed (item sent)) (LogSends s))).
  { split; constructor. }
  intros s1 s2 _ Hstep [Hq Hs].
  destruct Hstep; cbn; try done.
  - split; [constructor|]. rewrite drain_logs_owed.
    apply Forall_app. split; [done|].
    apply Forall_forall. intros sent Hsent.
    apply elem_of_owed in Hsent as (Hin & _).
    rewrite Forall_forall in Hq. by apply Hq.
  - unfold PushLog.
    destruct (String.eqb_spec (tp.Log.UpdatedTime (UpdateMatchedPolicy fd log)) "");
      [done|]. cbn. split; [|done].
    apply Forall_app. split; [done|]. by repeat constructor.
Qed.

Lemma filter_only {A : Type} `{EqDecision A} (l : list A) (x : A) :
  NoDup l → x ∈ l → filter (λ y, y = x) l = [x].
Proof.
  induction 1 as [|y l Hy Hnd IH]; intros Hin.
  - by apply elem_of_nil in Hin.
  - rewrite filter_cons. destruct (decide (y = x)) as [->|Hne].
    + f_equal. clear IH Hin Hnd.
      induction l as [|z l IHl]; [done|].
      apply not_elem_of_cons in Hy as [Hzx Hy].
      rewrite filter_cons_False by congruence. by apply IHl.
    + apply elem_of_cons in Hin as [->|Hin]; [done|]. by apply IH.
Qed.

(** What one subscriber of the snapshot is owed of one log. *)
Lemma owed_one_to (broken : gset nat) (pbLog : pb.Log.t)
    (logStructs : list LogStruct.t) (lgs : LogStruct.t) :
  NoDup logStructs → lgs ∈ logStructs →
  item <$> filter (λ sent, via sent = lgs)
                  (owed wants_log (log_stream_up broken) [pbLog] logStructs)
  = filter (λ l, passes (LogStruct.Filter lgs) (pb.Log.Type_ l)) [pbLog].
Proof.
  intros Hnd Hin. rewrite owed_one.
  assert (Hvia :
    filter (λ sent : Sent LogStruct.t pb.Log.t, via sent = lgs)
      ((λ sub, mkSent sub pbLog (log_stream_up broken sub))
         <$> filter (λ sub, wants_log sub pbLog) logStructs)
    = (λ sub, mkSent sub pbLog (log_stream_up broken sub))
        <$> filter (λ sub, wants_log sub pbLog)
                   (filter (λ y, y = lgs) logStructs)).
  { clear Hnd Hin. induction logStructs as [|y l IH]; [done|].
    rewrite (filter_cons (λ sub, wants_log sub pbLog) y l).
    rewrite (filter_cons (λ y0, y0 = lgs) y l).
    destruct (decide (wants_log y pbLog)) as [Hw|Hw],
             (decide (y = lgs)) as [Heq|Hne].
    - subst y. rewrite fmap_cons, filter_cons_True by done.
      rewrite (filter_cons_True (λ sub, wants_log sub pbLog)) by done.
      by rewrite fmap_cons, IH.
    - rewrite fmap_cons, filter_cons_False by done. exact IH.
    - subst y.
      by rewrite (filter_cons_False (λ sub, wants_log sub pbLog)).
    - exact IH. }
  rewrite Hvia, (filter_only _ _ Hnd Hin), !filter_cons, !filter_nil.
  unfold wants_log.
  destruct (decide (passes (LogStruct.Filter lgs) (pb.Log.Type_ pbLog))); done.
Qed.

(** X14. First in, first out, per subscriber. In one turn of [WatchLogs] a
    subscriber of the table is sent the queued logs that pass its filter,
    all of them and no others, in the order in which they were queued. The
    entries of the table are told apart by stream and filter. *)
Theorem WatchLogs_fifo walk s lgs :
  NoDup (getLogStructs walk (ls s)) → lgs ∈ getLogStructs walk (ls s) →
  ∃ sends,
    LogSends (WatchLogs_turn walk s) = LogSends s ++ sends
    ∧ item <$> filter (λ sent, via sent = lgs) sends
      = filter (λ l, passes (LogStruct.Filter lgs) (pb.Log.Type_ l)) (LogQueue s).
Proof.
  intros Hnd Hin. eexists. split; [apply drain_logs_owed|].
  induction (LogQueue s) as [|pbLog queue IH]; [done|].
  rewrite (owed_cons _ _ pbLog queue), filter_app, fmap_app, IH.
  rewrite (owed_one_to _ _ _ _ Hnd Hin).
  change (pbLog :: queue) with ([pbLog] ++ queue). by rewrite filter_app.
Qed.

(** X15. Registering and unregistering. A call of [WatchLogs] under a uid
    that is not in the table leaves the table, once its deferred remove has
    run, as it found it. Under a uid that is in the table (two equal uuids)
    the earlier subscriber is overwritten, and the remove leaves the uid
    with no subscriber at all. The other uids and the table of message
    subscribers are not touched. *)
Theorem WatchLogs_registration uid srv filter (lsv : LogService) :
  (LogStructs lsv !! uid = None →
     removeLogStruct uid (addLogStruct uid srv filter lsv) = lsv)
  ∧ LogStructs (addLogStruct uid srv filter lsv) !! uid
    = Some (LogStruct.mk srv filter)
  ∧ LogStructs (removeLogStruct uid (addLogStruct uid srv filter lsv)) !! uid
    = None
  ∧ (∀ other, other ≠ uid →
       LogStructs (removeLogStruct uid (addLogStruct uid srv filter lsv)) !! other
       = LogStructs lsv !! other)
  ∧ MsgStructs (removeLogStruct uid (addLogStruct uid srv filter lsv))
    = MsgStructs lsv.
Proof.
  destruct lsv as [msgs logs]. unfold removeLogStruct, addLogStruct. cbn.
  split; [|split; [|split; [|split]]].
  - intros Hfresh. f_equal. rewrite delete_insert_eq. by apply delete_id.
  - apply lookup_insert_eq.
  - apply lookup_delete_eq.
  - intros other Hother. rewrite lookup_delete_ne by done.
    by rewrite lookup_insert_ne.
  - done.
Qed.

Lemma in_turn_app ws1 ws2 :
  in_turn (ws1 ++ ws2) = (in_turn ws1 + in_turn ws2)%nat.
Proof. unfold in_turn. by rewrite filter_app, length_app. Qed.

Lemma in_turn_cons w ws :
  in_turn (w :: ws) = (in_turn [w] + in_turn ws)%nat.
Proof. apply (in_turn_app [w] ws). Qed.

Lemma in_turn_one uid st :
  in_turn [mkWatcher uid st] = if st is InTurn then 1%nat else 0%nat.
Proof. by destruct st. Qed.

Lemma in_turn_split ws i w :
  ws !! i = Some w →
  in_turn ws = (in_turn (take i ws) + in_turn [w] + in_turn (drop (S i) ws))%nat.
Proof.
  intros Hi. rewrite <- (take_drop_middle ws i w Hi) at 1.
  rewrite in_turn_app, in_turn_cons. lia.
Qed.

(** A turn takes its watcher back to the test: one fewer stands past it. *)
Lemma in_turn_back ws i uid :
  ws !! i = Some (mkWatcher uid InTurn) →
  S (in_turn (<[i := mkWatcher uid AtTest]> ws)) = in_turn ws.
Proof.
  intros Hi. rewrite (in_turn_split ws i _ Hi).
  rewrite insert_take_drop by (by eapply lookup_lt_Some).
  rewrite in_turn_app, in_turn_cons, !in_turn_one. lia.
Qed.

(** A watcher that leaves from the test was not past it. *)
Lemma in_turn_leave ws i uid :
  ws !! i = Some (mkWatcher uid AtTest) →
  in_turn (delete i ws) = in_turn ws.
Proof.
  intros Hi. rewrite (in_turn_split ws i _ Hi).
  rewrite delete_take_drop, in_turn_app, in_turn_one. lia.
Qed.

Lemma in_turn_enter ws uid :
  in_turn (ws ++ [mkWatcher uid AtTest]) = in_turn ws.
Proof. rewrite in_turn_app, in_turn_one. lia. Qed.

(** X16. After the shutdown. Once [Running] is false it stays false and no
    call passes the test of its loop any more, but a call that read
    [Running] before the stop still takes the turn it was about to take:
    the calls past the test only get fewer, one for each turn taken. Over
    a stretch in which none of them takes its turn no [Send] is made and
    nothing leaves the queue: what is pushed stays queued behind what was
    there. *)
Theorem turns_after_stop (s s' : System) :
  Running s = false → rtc step s s' →
  Running s' = false
  ∧ (in_turn (LogWatchers s') ≤ in_turn (LogWatchers s))%nat
  ∧ (in_turn (MsgWatchers s') ≤ in_turn (MsgWatchers s))%nat
  ∧ (in_turn (LogWatchers s') = in_turn (LogWatchers s) →
     LogSends s' = LogSends s ∧ LogQueue s `prefix_of` LogQueue s')
  ∧ (in_turn (MsgWatchers s') = in_turn (MsgWatchers s) →
     MsgSends s' = MsgSends s ∧ MsgQueue s `prefix_of` MsgQueue s').
Proof.
  intros Hstop. revert s'. apply (rtc_ind_r
    (λ s' : System, Running s' = false
       ∧ (in_turn (LogWatchers s') ≤ in_turn (LogWatchers s))%nat
       ∧ (in_turn (MsgWatchers s') ≤ in_turn (MsgWatchers s))%nat
       ∧ (in_turn (LogWatchers s') = in_turn (LogWatchers s) →
          LogSends s' = LogSends s ∧ LogQueue s `prefix_of` LogQueue s')
       ∧ (in_turn (MsgWatchers s') = in_turn (MsgWatchers s) →
          MsgSends s' = MsgSends s ∧ MsgQueue s `prefix_of` MsgQueue s'))).
  { done. }
  intros s1 s2 _ Hstep (Hrun & Hlw & Hmw & Hlogs & Hmsgs).
  destruct Hstep as
    [ uid svr filter s1 | i uid s1 Hi Hon | i uid walk s1 Hi Hwalk | i uid s1 Hi Hoff
    | uid svr filter s1 | i uid s1 Hi Hon | i uid walk s1 Hi Hwalk | i uid s1 Hi Hoff
    | fd now level message s1 | fd log s1 | s1 | c s1 ];
    cbn [globals MsgWatchers LogWatchers]; try congruence.
  - rewrite in_turn_enter. done.
  - pose proof (in_turn_back _ _ _ Hi).
    split; [done|]. split; [done|]. split; [lia|]. split; [done|]. lia.
  - rewrite (in_turn_leave _ _ _ Hi). done.
  - rewrite in_turn_enter. done.
  - pose proof (in_turn_back _ _ _ Hi).
    split; [done|]. split; [lia|]. split; [done|]. split; [lia|]. done.
  - rewrite (in_turn_leave _ _ _ Hi). done.
  - split; [done|]. split; [done|]. split; [done|]. split; [done|].
    intros Heq. destruct (Hmsgs Heq) as [Hsent Hq]. split; [done|].
    cbn. by apply prefix_app_r.
  - assert (Hpush : Running (PushLog fd log s1).1 = Running s1
              ∧ LogSends (PushLog fd log s1).1 = LogSends s1
              ∧ MsgSends (PushLog fd log s1).1 = MsgSends s1
              ∧ MsgQueue (PushLog fd log s1).1 = MsgQueue s1
              ∧ LogQueue s1 `prefix_of` LogQueue (PushLog fd log s1).1).
    { unfold PushLog.
      destruct (String.eqb (tp.Log.UpdatedTime (UpdateMatchedPolicy fd log)) "");
        cbn; repeat split; try done. by apply prefix_app_r. }
    destruct Hpush as (-> & -> & -> & -> & Hgrow).
    split; [done|]. split; [done|]. split; [done|]. split; [|done].
    intros Heq. destruct (Hlogs Heq) as [Hsent Hq]. split; [done|].
    by etrans.
  - done.
  - done.
Qed.

(** X17. A message that is pushed is sent in the next turn of
    [WatchMessages] to every subscriber of the table, after all that was
    queued before it; the record sent holds the level and the text as
    given, and the cluster, host and address of the feeder. *)
Theorem PushMessage_then_turn fd now level message walk s :
  MsgSends (WatchMessages_turn walk (PushMessage fd now level message s).1)
  = MsgSends (WatchMessages_turn walk s)
    ++ ((λ mgs, mkSent mgs
                  (pb.Message.mk now (clusterName fd) (hostName fd) (hostIP fd)
                     level message)
                  (msg_stream_up (Broken s) mgs))
          <$> getMsgStructs walk (ls s))
  ∧ (PushMessage fd now level message s).2 = None
  ∧ LogQueue (PushMessage fd now level message s).1 = LogQueue s.
Proof.
  split; [|done]. cbn. rewrite !drain_msgs_all, bind_app, app_assoc.
  f_equal. rewrite bind_cons. cbn. by rewrite app_nil_r.
Qed.

(** X18. A log with a time that is pushed is sent in the next turn of
    [WatchLogs] to the subscribers whose filter the type of the decorated
    log passes, after all that was queued before it. *)
Theorem PushLog_then_turn fd log walk s :
  tp.Log.UpdatedTime (UpdateMatchedPolicy fd log) ≠ "" →
  LogSends (WatchLogs_turn walk (PushLog fd log s).1)
  = LogSends (WatchLogs_turn walk s)
    ++ ((λ lgs, mkSent lgs (to_pbLog fd (UpdateMatchedPolicy fd log))
                  (log_stream_up (Broken s) lgs))
          <$> filter (λ lgs, passes (LogStruct.Filter lgs)
                               (tp.Log.Type_ (UpdateMatchedPolicy fd log)))
                     (getLogStructs walk (ls s))).
Proof.
  intros Htime. unfold PushLog.
  destruct (String.eqb_spec (tp.Log.UpdatedTime (UpdateMatchedPolicy fd log)) "");
    [done|]. cbn.
  rewrite !drain_logs_owed, owed_app, app_assoc. f_equal.
  by rewrite owed_one.
Qed.

End Queues.

(* ===================================================================== *)
(** ** More scenarios, run *)
(* ===================================================================== *)

Module more.
Import monitor scenario.

(** A [comm] of sixteen letters: no room for the NUL. *)
Definition comm_full : list byte := replicate 16 x61.

(** [close(5)] by a process the tracker does not know, with that [comm]. *)
Definition close_untracked : ContextCombined :=
  mkContextCombined "c1" (mkSyscallContext 42 1 7 0 3 0 comm_full) [ArgInt32 5].

(** [close(5)] by uid 4294967295. *)
Definition close_nobody : ContextCombined :=
  mkContextCombined "c1"
    (mkSyscallContext 42 1 7 4294967295 3 0 comm_nginx) [ArgInt32 5].

Definition close_5 : ContextCombined := event "c1" 1 7 3 0 [ArgInt32 5].

Definition open_hosts : ContextCombined :=
  event "c1" 1 7 2 0 [ArgString "/etc/hosts"; ArgString "O_RDONLY"].

Definition socket_tcp : ContextCombined :=
  event "c1" 1 7 41 0
    [ArgString "AF_INET"; ArgString "SOCK_STREAM"; ArgInt32 6].

(** [bind] with the descriptor and no address. *)
Definition bind_bare : ContextCombined := event "c1" 1 7 49 0 [ArgInt32 5].

(** The log the loop body makes of an event, in the first scenarios. *)
Definition log_of (now : string) (msg : ContextCombined) : tp.Log.t :=
  match UpdateLogs_msg (H := env) mon now map_to_list msg with
  | Handed log => log
  | _ => tp.Log.zero
  end.

(** Two events are sent and [StopChan] becomes ready; the [select] still
    takes the two events, then [StopChan]; the goroutine of the second log
    calls [PushLog] before that of the first. *)
Definition late_and_swapped : list Action :=
  [Send open_hosts; Send close_5; Fire;
   Receive "t1" map_to_list open_hosts; Receive "t2" map_to_list close_5;
   Call (log_of "t2" close_5); Stop; Call (log_of "t1" open_hosts)].

(** A monitor with no feeder. *)
Definition mon_alone : SystemMonitor := mkSystemMonitor "node1" registry false None.

(** A feeder that writes to a file. *)
Definition fd_file : feeder.Feeder :=
  feeder.mkFeeder ":32767" "/tmp/kubearmor.log" "" "node1" "10.0.0.1" ∅ true.

(** The service of the first scenarios, shut down between A's read of
    [Running] and A's turn; then one more log is pushed and A takes the
    turn. *)
Definition stopped : feeder.System :=
  feeder.mkSystem (feeder.DestroyFeeder pushed) []
    [feeder.mkWatcher "A" feeder.InTurn; feeder.mkWatcher "B" feeder.AtTest].
Definition late_turn : feeder.System :=
  feeder.mkSystem
    (feeder.WatchLogs_turn map_to_list
       (@feeder.PushLog plain_matcher fd0 plain_log (feeder.DestroyFeeder pushed)).1)
    []
    [feeder.mkWatcher "A" feeder.AtTest; feeder.mkWatcher "B" feeder.AtTest].

End more.

Section MoreRuns.
Import monitor feeder scenario more.

Lemma BuildLogBase_panic_exactly_witness :
  BuildLogBase (H := env) mon "t" close_untracked = None
  ∧ ∃ log, BuildLogBase (H := env) mon "t" execve_sh = Some log
      ∧ tp.Log.Source log = "/usr/sbin/cron".
Proof.
  split.
  - apply (proj1 (@BuildLogBase_panic_exactly env mon "t" close_untracked)).
    split; [reflexivity|]. unfold close_untracked, comm_full. cbn.
    repeat constructor; discriminate.
  - destruct (proj2 (@BuildLogBase_panic_exactly env mon "t" execve_sh))
      as (log & Hlog & Hsrc); [vm_compute; discriminate|].
    exists log. split; [exact Hlog|]. rewrite Hsrc. vm_compute. reflexivity.
Defined.

Lemma BuildLogBase_numbers_witness :
  ∃ log, BuildLogBase (H := env) mon "t" close_nobody = Some log
    ∧ tp.Log.PID log = 7 ∧ tp.Log.UID log = -1.
Proof.
  eexists. split; [vm_compute; reflexivity|].
  match goal with |- tp.Log.PID ?l = _ ∧ _ =>
    destruct (@BuildLogBase_numbers env mon "t" close_nobody l eq_refl)
      as (_ & _ & [Hpid _] & [_ Huid])
  end.
  split.
  - rewrite Hpid; [reflexivity | cbn; lia].
  - destruct Huid as [-> _]; [cbn; lia | reflexivity].
Defined.

Lemma Handed_unclassified_witness :
  ∃ log, UpdateLogs_msg (H := env) mon "t" map_to_list (openat_passwd 0)
         = Handed log
    ∧ tp.Log.UpdatedTime log = "t" ∧ tp.Log.Type_ log = ""
    ∧ tp.Log.Action log = "".
Proof.
  eexists. split; [vm_compute; reflexivity|].
  match goal with |- tp.Log.UpdatedTime ?l = _ ∧ _ =>
    destruct (@Handed_unclassified env mon "t" map_to_list (openat_passwd 0)
                l eq_refl) as (Ht & _ & _ & Hty & _ & _ & _ & _ & Hact)
  end.
  split; [exact Ht|]. split; [exact Hty | exact Hact].
Defined.

Lemma UpdateLogs_msg_panics_witness :
  UpdateLogs_msg (H := env) mon "t" map_to_list close_untracked = Panic
  ∧ UpdateLogs_msg (H := env) mon_alone "t" map_to_list close_5 = Skipped.
Proof.
  split.
  - apply (proj1 (@UpdateLogs_msg_panics env mon "t" map_to_list
                    close_untracked)).
    vm_compute. reflexivity.
  - destruct (@UpdateLogs_msg_panics env mon_alone "t" map_to_list close_5)
      as [Hpanic Hnone].
    destruct (UpdateLogs_msg (H := env) mon_alone "t" map_to_list close_5)
      as [| |log] eqn:Hout; [|reflexivity|].
    + pose proof (proj1 Hpanic eq_refl) as Hbase.
      vm_compute in Hbase. discriminate.
    + exfalso. exact (Hnone eq_refl log eq_refl).
Defined.

Lemma not_dropped_here msg : ¬ auditd_drops (H := env) mon msg.
Proof. intros (Hon & _). discriminate. Qed.

Lemma UpdateLogs_open_witness :
  ∃ log, UpdateLogs_msg (H := env) mon "t" map_to_list open_hosts = Handed log
    ∧ tp.Log.Operation log = "File"
    ∧ tp.Log.Resource log = "/etc/hosts"
    ∧ tp.Log.Data log = "flags=O_RDONLY".
Proof.
  destruct (BuildLogBase_returns (H := env) mon "t" open_hosts comm_nginx_NUL)
    as [base Hbase].
  destruct (@UpdateLogs_open env mon "t" map_to_list open_hosts base fd0
              Hbase eq_refl eq_refl (not_dropped_here _))
    as (log & Hlog & Hop & Hshape & _).
  exists log. split; [exact Hlog|]. split; [exact Hop|].
  exact (Hshape "/etc/hosts" "O_RDONLY" eq_refl).
Defined.

Lemma UpdateLogs_openat_witness :
  ∃ log, UpdateLogs_msg (H := env) mon "t" map_to_list (openat_passwd 0)
         = Handed log
    ∧ tp.Log.Resource log = "/etc/passwd"
    ∧ tp.Log.Data log = "fd=-100 flags=O_RDONLY".
Proof.
  destruct (BuildLogBase_returns (H := env) mon "t" (openat_passwd 0)
              comm_nginx_NUL) as [base Hbase].
  destruct (@UpdateLogs_openat env mon "t" map_to_list (openat_passwd 0) base
              fd0 Hbase eq_refl eq_refl (not_dropped_here _))
    as (log & Hlog & _ & Hshape & _).
  exists log. split; [exact Hlog|].
  destruct (Hshape (-100) "/etc/passwd" "O_RDONLY" eq_refl) as [Hres Hdata].
  split; [exact Hres|]. rewrite Hdata. vm_compute. reflexivity.
Defined.

Lemma UpdateLogs_close_witness :
  ∃ log, UpdateLogs_msg (H := env) mon "t" map_to_list close_5 = Handed log
    ∧ tp.Log.Resource log = "close" ∧ tp.Log.Data log = "fd=5".
Proof.
  destruct (BuildLogBase_returns (H := env) mon "t" close_5 comm_nginx_NUL)
    as [base Hbase].
  destruct (@UpdateLogs_close env mon "t" map_to_list close_5 base fd0
              Hbase eq_refl eq_refl) as (log & Hlog & _ & Hres & Hdata & _).
  exists log. split; [exact Hlog|]. split.
  - rewrite Hres. vm_compute. reflexivity.
  - rewrite (Hdata 5 eq_refl). vm_compute. reflexivity.
Defined.

Lemma UpdateLogs_socket_witness :
  ∃ log, UpdateLogs_msg (H := env) mon "t" map_to_list socket_tcp = Handed log
    ∧ tp.Log.Resource log
      = "syscall=socket domain=AF_INET type=SOCK_STREAM protocol=6"
    ∧ tp.Log.Data log = "".
Proof.
  destruct (BuildLogBase_returns (H := env) mon "t" socket_tcp comm_nginx_NUL)
    as [base Hbase].
  destruct (@UpdateLogs_socket env mon "t" map_to_list socket_tcp base fd0
              Hbase eq_refl eq_refl) as (log & Hlog & _ & Hdata & Hres & _).
  exists log. split; [exact Hlog|]. split; [|exact Hdata].
  rewrite (Hres "AF_INET" "SOCK_STREAM" 6 eq_refl). vm_compute. reflexivity.
Defined.

Lemma UpdateLogs_sockaddr_data_witness :
  (∃ log, UpdateLogs_msg (H := env) mon "t" map_to_list connect_inet = Handed log
     ∧ tp.Log.Data log = "fd=5")
  ∧ (∃ log, UpdateLogs_msg (H := env) mon "t" map_to_list bind_bare = Handed log
       ∧ tp.Log.Data log = "fd=" ∧ tp.Log.Resource log = "syscall=bind").
Proof.
  split.
  - destruct (BuildLogBase_returns (H := env) mon "t" connect_inet
                comm_nginx_NUL) as [base Hbase].
    destruct (@UpdateLogs_sockaddr_data env mon "t" map_to_list connect_inet
                base fd0 Hbase eq_refl (or_introl eq_refl) map_to_list_ok)
      as (log & Hlog & _ & Hdata & _).
    exists log. split; [exact Hlog|].
    rewrite (Hdata 5 _ eq_refl). vm_compute. reflexivity.
  - destruct (BuildLogBase_returns (H := env) mon "t" bind_bare
                comm_nginx_NUL) as [base Hbase].
    destruct (@UpdateLogs_sockaddr_data env mon "t" map_to_list bind_bare
                base fd0 Hbase eq_refl (or_intror (or_intror eq_refl))
                map_to_list_ok)
      as (log & Hlog & _ & _ & Hbare & _).
    exists log. split; [exact Hlog|].
    destruct Hbare as [Hdata Hres]; [cbn; lia|].
    split; [exact Hdata|]. rewrite Hres. vm_compute. reflexivity.
Defined.

Lemma UpdateLogs_runs_witness :
  ∃ s, runs (H := env) mon fresh late_and_swapped s
    ∧ loop s = Returned
    ∧ (tp.Log.Resource <$> started (H := env) mon late_and_swapped)
      = ["/etc/hosts"; "close"]
    ∧ (tp.Log.Resource <$> called late_and_swapped)
      = ["close"; "/etc/hosts"]
    ∧ called late_and_swapped ≡ₚ started (H := env) mon late_and_swapped
    ∧ received late_and_swapped = sent late_and_swapped.
Proof.
  assert (Hrun : ∃ s, runs (H := env) mon fresh late_and_swapped s
                   ∧ loop s = Returned ∧ waiting s = [] ∧ ContextChan s = []).
  { eexists. split.
    - eapply runs_cons; [apply UpdateLogs_Send; [discriminate | reflexivity]|].
      eapply runs_cons; [apply UpdateLogs_Send; [discriminate | reflexivity]|].
      eapply runs_cons; [apply UpdateLogs_Fire; discriminate|].
      eapply runs_cons;
        [apply (UpdateLogs_Receive (H := env) mon "t1" map_to_list open_hosts [close_5]);
           [reflexivity | reflexivity | apply map_to_list_ok]|].
      eapply runs_cons;
        [apply (UpdateLogs_Receive (H := env) mon "t2" map_to_list close_5 []);
           [vm_compute; reflexivity | vm_compute; reflexivity | apply map_to_list_ok]|].
      eapply runs_cons;
        [apply (UpdateLogs_Call (H := env) mon (log_of "t2" close_5)
                  [log_of "t1" open_hosts] []);
           [vm_compute; discriminate | vm_compute; reflexivity]|].
      eapply runs_cons;
        [apply UpdateLogs_Stop; vm_compute; reflexivity|].
      eapply runs_cons;
        [apply (UpdateLogs_Call (H := env) mon (log_of "t1" open_hosts) [] []);
           [vm_compute; discriminate | vm_compute; reflexivity]|].
      apply runs_nil.
    - split; [reflexivity|]. split; reflexivity. }
  destruct Hrun as (s & Hrun & Hloop & Hwait & Hchan).
  exists s. split; [exact Hrun|]. split; [exact Hloop|].
  destruct (@UpdateLogs_runs env mon late_and_swapped s Hrun)
    as (Hfifo & Hcalls & _ & _).
  rewrite Hwait, app_nil_r in Hcalls. rewrite Hchan, app_nil_r in Hfifo.
  split; [vm_compute; reflexivity|]. split; [vm_compute; reflexivity|].
  split; [exact Hcalls | exact Hfifo].
Defined.

Lemma PushLog_copies_fields_witness :
  tp.Log.UpdatedTime (UpdateMatchedPolicy (Matcher := plain_matcher) fd0 matched_log) ≠ ""
  ∧ ∃ pbLog,
      LogQueue (PushLog (H := plain_matcher) fd0 matched_log subscribed).1
      = [pbLog]
      ∧ same_fields matched_log pbLog.
Proof.
  assert (Htime : tp.Log.UpdatedTime
                    (UpdateMatchedPolicy (Matcher := plain_matcher) fd0 matched_log)
                  ≠ "") by discriminate.
  split; [exact Htime|].
  destruct (@PushLog_copies_fields plain_matcher fd0 matched_log subscribed
              Htime) as (pbLog & Hq & _ & Hsame & _).
  exists pbLog. split; [exact Hq | exact Hsame].
Defined.

Lemma PushLog_sink_witness :
  Sink (PushLog (H := plain_matcher) fd0 matched_log subscribed).1
  = [Println "/etc/passwd"]
  ∧ Sink (PushLog (H := plain_matcher) fd_file matched_log subscribed).1
    = [StrToFile "/etc/passwd" "/tmp/kubearmor.log"].
Proof.
  assert (Htime : ∀ fd, tp.Log.UpdatedTime
                    (UpdateMatchedPolicy (Matcher := plain_matcher) fd matched_log)
                  ≠ "") by (intros fd; discriminate).
  split.
  - destruct (@PushLog_sink plain_matcher fd0 matched_log subscribed
                (Htime _)) as (Hstdout & _).
    exact (Hstdout eq_refl).
  - destruct (@PushLog_sink plain_matcher fd_file matched_log subscribed
                (Htime _)) as (_ & _ & Hfile & _).
    apply Hfile; discriminate.
Defined.

Lemma no_untimed_log_sent_witness :
  reachable (H := plain_matcher) after_turn
  ∧ Forall (λ sent, timed (item sent)) (LogSends delivered)
  ∧ length (LogSends delivered) = 3%nat.
Proof.
  assert (Hreach : reachable (H := plain_matcher) after_turn).
  { destruct delivered_reachable as [Hpushed Hturn].
    eapply rtc_r; [exact Hpushed | exact Hturn]. }
  split; [exact Hreach|]. split; [|reflexivity].
  exact (proj2 (@no_untimed_log_sent plain_matcher after_turn Hreach)).
Defined.

Lemma WatchLogs_fifo_witness :
  NoDup (getLogStructs map_to_list (ls pushed))
  ∧ LogStruct.mk 1 "" ∈ getLogStructs map_to_list (ls pushed)
  ∧ ∃ sends,
      LogSends (WatchLogs_turn map_to_list pushed) = LogSends pushed ++ sends
      ∧ item <$> filter (λ sent, via sent = LogStruct.mk 1 "") sends
        = [to_pbLog fd0 plain_log; to_pbLog fd0 matched_log].
Proof.
  assert (Hnd : NoDup (getLogStructs map_to_list (ls pushed))).
  { apply (bool_decide_unpack _). vm_compute. exact I. }
  assert (Hin : LogStruct.mk 1 "" ∈ getLogStructs map_to_list (ls pushed)).
  { apply (bool_decide_unpack _). vm_compute. exact I. }
  split; [exact Hnd|]. split; [exact Hin|].
  destruct (WatchLogs_fifo map_to_list pushed (LogStruct.mk 1 "") Hnd Hin)
    as (sends & Hsends & Hfifo).
  exists sends. split; [exact Hsends|]. rewrite Hfifo.
  vm_compute. reflexivity.
Defined.

Lemma WatchLogs_registration_witness :
  LogStructs (ls subscribed) !! "C" = None
  ∧ removeLogStruct "C" (addLogStruct "C" 3 "system" (ls subscribed))
    = ls subscribed
  ∧ LogStructs (ls subscribed) !! "A" = Some (LogStruct.mk 1 "")
  ∧ LogStructs (removeLogStruct "A" (addLogStruct "A" 3 "system" (ls subscribed)))
      !! "A" = None.
Proof.
  assert (Hfresh : LogStructs (ls subscribed) !! "C" = None).
  { vm_compute. reflexivity. }
  split; [exact Hfresh|].
  destruct (WatchLogs_registration "C" 3 "system" (ls subscribed))
    as (Hback & _).
  split; [exact (Hback Hfresh)|]. split; [vm_compute; reflexivity|].
  destruct (WatchLogs_registration "A" 3 "system" (ls subscribed))
    as (_ & _ & Hgone & _).
  exact Hgone.
Defined.

(** The late turn: the service is stopped, and A still sends the three
    queued logs to A and the matched one to B. *)
Lemma turns_after_stop_witness :
  Running stopped = false
  ∧ rtc (step (H := plain_matcher)) stopped late_turn
  ∧ Running late_turn = false
  ∧ in_turn (LogWatchers stopped) = 1%nat
  ∧ in_turn (LogWatchers late_turn) = 0%nat
  ∧ LogSends stopped = []
  ∧ length (LogSends late_turn) = 4%nat
  ∧ LogQueue late_turn = []
  ∧ MsgSends late_turn = MsgSends stopped.
Proof.
  assert (Hrun : rtc (step (H := plain_matcher)) stopped late_turn).
  { eapply rtc_l; [apply (step_PushLog (H := plain_matcher) fd0 plain_log stopped)|].
    apply rtc_once.
    apply (step_WatchLogs_turn (H := plain_matcher) 0 "A" map_to_list
             (mkSystem (@PushLog plain_matcher fd0 plain_log (DestroyFeeder pushed)).1
                [] [mkWatcher "A" InTurn; mkWatcher "B" AtTest]));
      [reflexivity | apply map_to_list_ok]. }
  destruct (@turns_after_stop plain_matcher stopped late_turn eq_refl Hrun)
    as (Hoff & _ & _ & _ & Hmsgs).
  split; [reflexivity|]. split; [exact Hrun|]. split; [exact Hoff|].
  split; [reflexivity|]. split; [reflexivity|]. split; [reflexivity|].
  split; [reflexivity|]. split; [reflexivity|].
  exact (proj1 (Hmsgs eq_refl)).
Defined.

Lemma PushLog_then_turn_witness :
  tp.Log.UpdatedTime (UpdateMatchedPolicy (Matcher := plain_matcher) fd0 plain_log) ≠ ""
  ∧ LogStruct.Filter ∘ via
      <$> LogSends (WatchLogs_turn map_to_list
                      (PushLog (H := plain_matcher) fd0 plain_log subscribed).1)
    = [""].
Proof.
  assert (Htime : tp.Log.UpdatedTime
                    (UpdateMatchedPolicy (Matcher := plain_matcher) fd0 plain_log)
                  ≠ "") by discriminate.
  split; [exact Htime|].
  rewrite (@PushLog_then_turn plain_matcher fd0 plain_log map_to_list
             subscribed Htime).
  vm_compute. reflexivity.
Defined.

End MoreRuns.
